(** * EnvironmentalVoting: a shallow embedding of the confidential tally contract

    The development follows
    [examples/environmental-voting/contracts/EnvironmentalVoting.sol]:
    contract storage is a record, every external function is a function from
    the call environment and the storage to a [result], a failed [require]
    (or a checked-arithmetic panic) aborts the call and leaves the storage as
    it was. *)

From Stdlib Require Import ZArith String List Bool Lia.
From Stdlib Require Import Sorting.Sorted.
From Stdlib Require Import Strings.Byte.
From stdpp Require Import gmap strings list fin_maps.

Open Scope Z_scope.

(** ** Machine integers and byte strings *)

Abbreviation address := Z (only parsing).
Abbreviation bytes := (list byte) (only parsing).

Definition max_uint32 : Z := 2 ^ 32 - 1.
Definition max_uint256 : Z := 2 ^ 256 - 1.

(** ** Call outcomes *)

Inductive failure : Type :=
  | Revert (reason : string)   (* a [require(cond, reason)] did not hold *)
  | Panic (code : Z)           (* 0x11: checked arithmetic overflowed *)
  | InvalidKMSSignatures       (* [FHE.checkSignatures] reverted *)
  | AbiDecodeError.            (* [abi.decode] reverted *)

Inductive result (A : Type) : Type :=
  | Ok (a : A)
  | Fail (f : failure).

Arguments Ok {A} a.
Arguments Fail {A} f.

Definition bind {A B : Type} (m : result A) (k : A -> result B) : result B :=
  match m with
  | Ok a => k a
  | Fail f => Fail f
  end.

Definition require_ {A : Type} (cond : bool) (reason : string)
    (k : result A) : result A :=
  if cond then k else Fail (Revert reason).

Notation "'require' c 'otherwise' msg ';;' k" := (require_ c msg k)
  (at level 10, c at level 99, msg at level 0, k at level 200,
   format "'[v' 'require'  c  'otherwise'  msg ';;' '/' k ']'").
Notation "'let!' x ':=' m 'in' k" := (bind m (fun x => k))
  (at level 10, x name, m at level 99, k at level 200,
   format "'[v' 'let!'  x  ':='  m  'in' '/' k ']'").

(** Solidity 0.8 arithmetic on a [uintN]: the sum is checked against the
    largest value of the type and the call panics when it does not fit. *)
Definition checked_add (max a b : Z) : result Z :=
  if a + b <=? max then Ok (a + b) else Fail (Panic 17).

(** ** ABI decoding of the callback payload

    [abi.decode(cleartexts, (uint32, uint32))] reads two 32-byte big-endian
    words; it reverts when fewer than 64 bytes are supplied or when a word
    does not fit in 32 bits. Bytes after the second word are ignored. *)

Definition be_word (bs : bytes) : Z :=
  fold_left (fun acc b => acc * 256 + Z.of_N (Byte.to_N b)) bs 0.

Definition abi_decode_uint32_pair (data : bytes) : option (Z * Z) :=
  if (Z.of_nat (length data) <? 64) then None
  else
    let w0 := be_word (firstn 32 data) in
    let w1 := be_word (firstn 32 (skipn 32 data)) in
    if (w0 <=? max_uint32) && (w1 <=? max_uint32) then Some (w0, w1) else None.

(** The matching encoder, [abi.encode(uint32, uint32)], is what the oracle
    runs off-chain; it is used here to build callback payloads. *)
Definition be_byte (v : Z) (i : nat) : byte :=
  default "000"%byte (Byte.of_N (Z.to_N ((v / 256 ^ Z.of_nat (31 - i)) mod 256))).

Definition abi_word (v : Z) : bytes := List.map (be_byte v) (seq 0 32).

Definition abi_encode_uint32_pair (y n : Z) : bytes := abi_word y ++ abi_word n.

(** ** The FHE library, as the contract sees it

    Modelled from the spec: the library [@fhevm/solidity/lib/FHE.sol] is an
    external dependency of the repository. Following the glossary, a
    ciphertext is an opaque representation of a plaintext and homomorphic
    addition yields a ciphertext of the sum of the plaintexts; the ideal
    functionality below keeps the plaintext inside the ciphertext record, and
    the contract never projects it out. [euint32] addition wraps modulo
    [2^32]. Access-control grants ([FHE.allowThis], [FHE.allow]) are recorded
    by the external ACL contract and touch nothing in this contract's
    storage, so they do not appear in the embedding. *)

Record euint8 : Type := Enc8 { dec8 : Z }.
Record euint32 : Type := Enc32 { dec32 : Z }.

#[global] Instance euint32_eq_dec : EqDecision euint32.
Proof. solve_decision. Defined.

Module FHE.

Definition asEuint8 (v : Z) : euint8 := Enc8 v.
Definition asEuint32 (v : Z) : euint32 := Enc32 v.

Definition add (a b : euint32) : euint32 :=
  Enc32 ((dec32 a + dec32 b) mod 2 ^ 32).

(** [euint32] is a value type over [bytes32]; unwrapping gives the handle,
    which stands for the ciphertext itself. *)
Definition toBytes32 (c : euint32) : euint32 := c.

(** What the library saves when a decryption is requested. [issuedFor] is
    a ghost field: the [_proposalId] argument of the [revealResults] call
    that made the request. Neither the library nor the contract stores it;
    it is kept so that theorems can name the originating proposal. *)
Record DecryptionRequest : Type := {
  requestID : Z;
  requestedHandles : list euint32;
  callbackSelector : string;
  issuedFor : Z
}.

(** The request counter starts at 0 and grows by one per request, so the
    next identifier is the number of requests made so far. *)
Definition requestDecryption (cts : list euint32) (selector : string)
    (ghost_proposal : Z) (reqs : list DecryptionRequest)
    : Z * list DecryptionRequest :=
  let requestID := Z.of_nat (length reqs) in
  (requestID,
   reqs ++ [{| requestID := requestID; requestedHandles := cts;
               callbackSelector := selector; issuedFor := ghost_proposal |}]).

End FHE.

(** ** Contract storage *)

Record Proposal : Type := {
  title : string;
  description : string;
  startTime : Z;
  endTime : Z;
  active : bool;
  resultsRevealed : bool;
  yesVotes : euint32;
  noVotes : euint32;
  totalVoters : Z;
  voters : list address
}.

Record Vote : Type := {
  encryptedVote : euint8;   (* 1 for yes, 0 for no *)
  hasVoted : bool;
  timestamp : Z
}.

Record Storage : Type := {
  admin : address;
  currentProposalId : Z;
  proposals : gmap Z Proposal;
  votes : gmap Z (gmap Z Vote);
  decryptionRequests : list FHE.DecryptionRequest
}.

(** A Solidity mapping is total: a key that was never written reads as the
    zero value of the value type. *)
Definition zero_Proposal : Proposal :=
  {| title := EmptyString; description := EmptyString; startTime := 0; endTime := 0;
     active := false; resultsRevealed := false;
     yesVotes := Enc32 0; noVotes := Enc32 0; totalVoters := 0; voters := [] |}.

Definition zero_Vote : Vote :=
  {| encryptedVote := Enc8 0; hasVoted := false; timestamp := 0 |}.

Definition proposal_at (s : Storage) (pid : Z) : Proposal :=
  default zero_Proposal (proposals s !! pid).

Definition votes_at (s : Storage) (pid : Z) : gmap Z Vote :=
  default ∅ (votes s !! pid).

Definition vote_at (s : Storage) (pid : Z) (who : address) : Vote :=
  default zero_Vote (votes_at s pid !! who).

(** Field updates. *)

Definition set_active (b : bool) (p : Proposal) : Proposal :=
  {| title := title p; description := description p;
     startTime := startTime p; endTime := endTime p;
     active := b; resultsRevealed := resultsRevealed p;
     yesVotes := yesVotes p; noVotes := noVotes p;
     totalVoters := totalVoters p; voters := voters p |}.

Definition set_resultsRevealed (b : bool) (p : Proposal) : Proposal :=
  {| title := title p; description := description p;
     startTime := startTime p; endTime := endTime p;
     active := active p; resultsRevealed := b;
     yesVotes := yesVotes p; noVotes := noVotes p;
     totalVoters := totalVoters p; voters := voters p |}.

Definition set_yesVotes (c : euint32) (p : Proposal) : Proposal :=
  {| title := title p; description := description p;
     startTime := startTime p; endTime := endTime p;
     active := active p; resultsRevealed := resultsRevealed p;
     yesVotes := c; noVotes := noVotes p;
     totalVoters := totalVoters p; voters := voters p |}.

Definition set_noVotes (c : euint32) (p : Proposal) : Proposal :=
  {| title := title p; description := description p;
     startTime := startTime p; endTime := endTime p;
     active := active p; resultsRevealed := resultsRevealed p;
     yesVotes := yesVotes p; noVotes := c;
     totalVoters := totalVoters p; voters := voters p |}.

Definition set_totalVoters (n : Z) (p : Proposal) : Proposal :=
  {| title := title p; description := description p;
     startTime := startTime p; endTime := endTime p;
     active := active p; resultsRevealed := resultsRevealed p;
     yesVotes := yesVotes p; noVotes := noVotes p;
     totalVoters := n; voters := voters p |}.

Definition push_voter (who : address) (p : Proposal) : Proposal :=
  {| title := title p; description := description p;
     startTime := startTime p; endTime := endTime p;
     active := active p; resultsRevealed := resultsRevealed p;
     yesVotes := yesVotes p; noVotes := noVotes p;
     totalVoters := totalVoters p; voters := voters p ++ [who] |}.

Definition set_proposals (m : gmap Z Proposal) (s : Storage) : Storage :=
  {| admin := admin s; currentProposalId := currentProposalId s;
     proposals := m; votes := votes s;
     decryptionRequests := decryptionRequests s |}.

Definition set_votes (m : gmap Z (gmap Z Vote)) (s : Storage) : Storage :=
  {| admin := admin s; currentProposalId := currentProposalId s;
     proposals := proposals s; votes := m;
     decryptionRequests := decryptionRequests s |}.

Definition set_currentProposalId (n : Z) (s : Storage) : Storage :=
  {| admin := admin s; currentProposalId := n;
     proposals := proposals s; votes := votes s;
     decryptionRequests := decryptionRequests s |}.

Definition set_admin (a : address) (s : Storage) : Storage :=
  {| admin := a; currentProposalId := currentProposalId s;
     proposals := proposals s; votes := votes s;
     decryptionRequests := decryptionRequests s |}.

Definition set_decryptionRequests (l : list FHE.DecryptionRequest)
    (s : Storage) : Storage :=
  {| admin := admin s; currentProposalId := currentProposalId s;
     proposals := proposals s; votes := votes s;
     decryptionRequests := l |}.

(** [proposals[pid].field = ...] *)
Definition update_proposal (pid : Z) (f : Proposal -> Proposal)
    (s : Storage) : Storage :=
  set_proposals (<[pid := f (proposal_at s pid)]> (proposals s)) s.

(** [votes[pid][who] = v] *)
Definition write_vote (pid : Z) (who : address) (v : Vote)
    (s : Storage) : Storage :=
  set_votes (<[pid := <[who := v]> (votes_at s pid)]> (votes s)) s.

(** ** Environment and events *)

Record Env : Type := {
  msg_sender : address;
  block_timestamp : Z
}.

Inductive Event : Type :=
  | ProposalCreated (proposalId : Z) (title_ : string) (startTime_ endTime_ : Z)
  | VoteSubmitted (voter : address) (proposalId : Z)
  | ResultsRevealed (proposalId : Z) (yesVotes_ noVotes_ : Z)
  | ProposalEnded (proposalId : Z).

(** ** Modifiers *)

Definition onlyAdmin {A : Type} (e : Env) (s : Storage)
    (body : result A) : result A :=
  require (msg_sender e =? admin s)
    otherwise "Only admin can perform this action";;
  body.

Definition proposalExists {A : Type} (_proposalId : Z) (s : Storage)
    (body : result A) : result A :=
  require (0 <? _proposalId) && (_proposalId <=? currentProposalId s)
    otherwise "Proposal does not exist";;
  body.

Definition proposalActive {A : Type} (e : Env) (_proposalId : Z) (s : Storage)
    (body : result A) : result A :=
  require active (proposal_at s _proposalId)
    otherwise "Proposal is not active";;
  require (startTime (proposal_at s _proposalId) <=? block_timestamp e)
    otherwise "Voting has not started";;
  require (block_timestamp e <=? endTime (proposal_at s _proposalId))
    otherwise "Voting has ended";;
  body.

Definition proposalEnded {A : Type} (e : Env) (_proposalId : Z) (s : Storage)
    (body : result A) : result A :=
  require (endTime (proposal_at s _proposalId) <? block_timestamp e)
    otherwise "Voting is still active";;
  body.

(** ** The contract *)

Definition constructor (e : Env) : Storage :=
  {| admin := msg_sender e; currentProposalId := 0;
     proposals := ∅; votes := ∅; decryptionRequests := [] |}.

Definition createProposal (e : Env) (_title _description : string)
    (_votingDuration : Z) (s : Storage) : result (Storage * list Event) :=
  onlyAdmin e s (
    require (0 <? Z.of_nat (String.length _title))
      otherwise "Title cannot be empty";;
    require (0 <? _votingDuration)
      otherwise "Voting duration must be positive";;
    let! newId := checked_add max_uint32 (currentProposalId s) 1 in
    let s := set_currentProposalId newId s in
    let startTime := block_timestamp e in
    let! endTime := checked_add max_uint256 startTime _votingDuration in
    let initialYesVotes := FHE.asEuint32 0 in
    let initialNoVotes := FHE.asEuint32 0 in
    let s :=
      set_proposals
        (<[currentProposalId s :=
             {| title := _title; description := _description;
                startTime := startTime; endTime := endTime;
                active := true; resultsRevealed := false;
                yesVotes := initialYesVotes; noVotes := initialNoVotes;
                totalVoters := 0; voters := [] |}]> (proposals s)) s in
    Ok (s, [ProposalCreated (currentProposalId s) _title startTime endTime])).

Definition submitVote (e : Env) (_proposalId _vote : Z) (s : Storage)
    : result (Storage * list Event) :=
  proposalExists _proposalId s (
  proposalActive e _proposalId s (
    require (_vote =? 0) || (_vote =? 1)
      otherwise "Vote must be 0 (no) or 1 (yes)";;
    require negb (hasVoted (vote_at s _proposalId (msg_sender e)))
      otherwise "Already voted on this proposal";;
    let encryptedVote := FHE.asEuint8 _vote in
    let s :=
      write_vote _proposalId (msg_sender e)
        {| encryptedVote := encryptedVote; hasVoted := true;
           timestamp := block_timestamp e |} s in
    let s := update_proposal _proposalId (push_voter (msg_sender e)) s in
    let! n :=
      checked_add max_uint32 (totalVoters (proposal_at s _proposalId)) 1 in
    let s := update_proposal _proposalId (set_totalVoters n) s in
    let s :=
      if _vote =? 1 then
        update_proposal _proposalId
          (fun p => set_yesVotes (FHE.add (yesVotes p) (FHE.asEuint32 1)) p) s
      else
        update_proposal _proposalId
          (fun p => set_noVotes (FHE.add (noVotes p) (FHE.asEuint32 1)) p) s in
    Ok (s, [VoteSubmitted (msg_sender e) _proposalId]))).

Definition revealResults (e : Env) (_proposalId : Z) (s : Storage)
    : result (Storage * list Event) :=
  proposalExists _proposalId s (
  proposalEnded e _proposalId s (
  onlyAdmin e s (
    require negb (resultsRevealed (proposal_at s _proposalId))
      otherwise "Results already revealed";;
    let proposal := proposal_at s _proposalId in
    let cts := [FHE.toBytes32 (yesVotes proposal);
                FHE.toBytes32 (noVotes proposal)] in
    let '(_, reqs) :=
      FHE.requestDecryption cts "processResults" _proposalId
        (decryptionRequests s) in
    Ok (set_decryptionRequests reqs s, [])))).

Definition getProposalInfo (_proposalId : Z) (s : Storage)
    : result (string * string * Z * Z * bool * bool * Z) :=
  proposalExists _proposalId s (
    let proposal := proposal_at s _proposalId in
    Ok (title proposal, description proposal, startTime proposal,
        endTime proposal, active proposal, resultsRevealed proposal,
        totalVoters proposal)).

Definition hasUserVoted (_proposalId : Z) (_user : address) (s : Storage)
    : result bool :=
  proposalExists _proposalId s (Ok (hasVoted (vote_at s _proposalId _user))).

Definition getVoteTimestamp (_proposalId : Z) (_user : address)
    (s : Storage) : result Z :=
  proposalExists _proposalId s (
    require hasVoted (vote_at s _proposalId _user)
      otherwise "User has not voted";;
    Ok (timestamp (vote_at s _proposalId _user))).

Definition isVotingActive (e : Env) (_proposalId : Z) (s : Storage)
    : result bool :=
  proposalExists _proposalId s (
    let proposal := proposal_at s _proposalId in
    Ok (active proposal
        && (startTime proposal <=? block_timestamp e)
        && (block_timestamp e <=? endTime proposal))).

Definition endProposal (e : Env) (_proposalId : Z) (s : Storage)
    : result (Storage * list Event) :=
  proposalExists _proposalId s (
  onlyAdmin e s (
    require active (proposal_at s _proposalId)
      otherwise "Proposal already ended";;
    let s := update_proposal _proposalId (set_active false) s in
    Ok (s, [ProposalEnded _proposalId]))).

Definition transferAdmin (e : Env) (_newAdmin : address) (s : Storage)
    : result (Storage * list Event) :=
  onlyAdmin e s (
    require negb (_newAdmin =? 0)
      otherwise "New admin cannot be zero address";;
    Ok (set_admin _newAdmin s, [])).

(** ** Transactions and runs *)

Inductive Call : Type :=
  | CreateProposal (_title _description : string) (_votingDuration : Z)
  | SubmitVote (_proposalId _vote : Z)
  | RevealResults (_proposalId : Z)
  | ProcessResults (requestId : Z) (cleartexts decryptionProof : bytes)
  | EndProposal (_proposalId : Z)
  | TransferAdmin (_newAdmin : address).

Section Oracle.

(** [FHE.checkSignatures(requestId, cleartexts, decryptionProof)]: the
    library verifies the oracle's signatures against what it saved for the
    request and reverts when they do not verify. Its verdict is a
    parameter of the development. *)
Variable checkSignatures :
  list FHE.DecryptionRequest -> Z -> bytes -> bytes -> bool.

Definition processResults (e : Env) (requestId : Z)
    (cleartexts decryptionProof : bytes) (s : Storage)
    : result (Storage * list Event) :=
  if checkSignatures (decryptionRequests s) requestId cleartexts
       decryptionProof
  then
    match abi_decode_uint32_pair cleartexts with
    | None => Fail AbiDecodeError
    | Some (yesVotes, noVotes) =>
        let proposalId := currentProposalId s in
        let s := update_proposal proposalId (set_resultsRevealed true) s in
        let s := update_proposal proposalId (set_active false) s in
        Ok (s, [ResultsRevealed proposalId yesVotes noVotes;
                ProposalEnded proposalId])
    end
  else Fail InvalidKMSSignatures.

Definition exec (e : Env) (c : Call) (s : Storage)
    : result (Storage * list Event) :=
  match c with
  | CreateProposal t d dur => createProposal e t d dur s
  | SubmitVote pid v => submitVote e pid v s
  | RevealResults pid => revealResults e pid s
  | ProcessResults rid ct pf => processResults e rid ct pf s
  | EndProposal pid => endProposal e pid s
  | TransferAdmin a => transferAdmin e a s
  end.

(** A transaction that reverts leaves the storage as it found it. *)
Definition step (s : Storage) (tx : Env * Call) : Storage :=
  match exec (fst tx) (snd tx) s with
  | Ok (s', _) => s'
  | Fail _ => s
  end.

Definition run (txs : list (Env * Call)) (s : Storage) : Storage :=
  fold_left step txs s.

End Oracle.

(** ** Vocabulary of the statements *)

Definition exists_in (s : Storage) (pid : Z) : Prop :=
  0 < pid <= currentProposalId s.

(** The revert reasons the specification names. *)
Definition AlreadyVoted : failure := Revert "Already voted on this proposal".
Definition Unauthorized : failure := Revert "Only admin can perform this action".
Definition ProposalNotFound : failure := Revert "Proposal does not exist".
Definition ProposalNotActive : failure := Revert "Proposal is not active".

(** The proposal record an accepted vote leaves behind. *)
Definition after_vote (who : address) (_vote : Z) (p : Proposal) : Proposal :=
  {| title := title p; description := description p;
     startTime := startTime p; endTime := endTime p;
     active := active p; resultsRevealed := resultsRevealed p;
     yesVotes := if _vote =? 1 then FHE.add (yesVotes p) (FHE.asEuint32 1)
                 else yesVotes p;
     noVotes := if _vote =? 1 then noVotes p
                else FHE.add (noVotes p) (FHE.asEuint32 1);
     totalVoters := totalVoters p + 1;
     voters := voters p ++ [who] |}.

Definition new_proposal (e : Env) (_title _description : string)
    (_votingDuration : Z) : Proposal :=
  {| title := _title; description := _description;
     startTime := block_timestamp e;
     endTime := block_timestamp e + _votingDuration;
     active := true; resultsRevealed := false;
     yesVotes := FHE.asEuint32 0; noVotes := FHE.asEuint32 0;
     totalVoters := 0; voters := [] |}.

(** The entry [revealResults] appends to the library's request store. *)
Definition reveal_request (_proposalId : Z) (s : Storage)
    : FHE.DecryptionRequest :=
  {| FHE.requestID := Z.of_nat (length (decryptionRequests s));
     FHE.requestedHandles := [yesVotes (proposal_at s _proposalId);
                              noVotes (proposal_at s _proposalId)];
     FHE.callbackSelector := "processResults";
     FHE.issuedFor := _proposalId |}.

(** Two proposal records that agree on everything but the two flags. *)
Definition same_data (p p' : Proposal) : Prop :=
  title p' = title p /\ description p' = description p /\
  startTime p' = startTime p /\ endTime p' = endTime p /\
  yesVotes p' = yesVotes p /\ noVotes p' = noVotes p /\
  totalVoters p' = totalVoters p /\ voters p' = voters p.

(** ** Invariant of the reachable storage *)

(** The vote records of a proposal that are marked [hasVoted]. *)
Definition voted_records (s : Storage) (pid : Z) : gmap Z Vote :=
  filter (fun kv => hasVoted (snd kv) = true) (votes_at s pid).

Record proposal_inv (s : Storage) (pid : Z) : Prop := {
  inv_tally :
    dec32 (yesVotes (proposal_at s pid)) + dec32 (noVotes (proposal_at s pid))
    = totalVoters (proposal_at s pid);
  inv_yes : 0 <= dec32 (yesVotes (proposal_at s pid));
  inv_no : 0 <= dec32 (noVotes (proposal_at s pid));
  inv_records :
    forall who v, votes_at s pid !! who = Some v -> hasVoted v = true;
  inv_count :
    Z.of_nat (size (votes_at s pid)) = totalVoters (proposal_at s pid);
  inv_voters :
    NoDup (voters (proposal_at s pid)) /\
    forall who, who ∈ voters (proposal_at s pid)
                <-> is_Some (votes_at s pid !! who);
  inv_fresh :
    ~ exists_in s pid ->
    votes_at s pid = ∅ /\ active (proposal_at s pid) = false;
  inv_flags :
    active (proposal_at s pid) = true ->
    resultsRevealed (proposal_at s pid) = false
}.

Definition storage_inv (s : Storage) : Prop :=
  0 <= currentProposalId s /\ forall pid, proposal_inv s pid.

(** *** The vote's value and what a transaction shows *)

(** The parts of a proposal and of a vote record that are stored in the
    clear. *)
Definition plain_proposal (p : Proposal)
    : string * string * Z * Z * bool * bool * Z * list address :=
  (title p, description p, startTime p, endTime p, active p,
   resultsRevealed p, totalVoters p, voters p).

Definition plain_vote (v : Vote) : bool * Z := (hasVoted v, timestamp v).

(** Which of the two encrypted counters of a proposal a transaction
    replaced. Ciphertext handles are public storage words, so this needs no
    decryption. *)
Definition counters_replaced (before after : Proposal) : bool * bool :=
  (bool_decide (yesVotes after <> yesVotes before),
   bool_decide (noVotes after <> noVotes before)).

(** What anyone watching the chain learns from a [submitVote] transaction
    without opening a ciphertext: the revert reason, or else the events and
    the counters replaced. *)
Definition observe_submitVote (e : Env) (_proposalId _vote : Z) (s : Storage)
    : failure + list Event * (bool * bool) :=
  match submitVote e _proposalId _vote s with
  | Ok (s', evs) =>
      inr (evs, counters_replaced (proposal_at s _proposalId)
                  (proposal_at s' _proposalId))
  | Fail f => inl f
  end.

(** ** Scenarios *)

(** A verifier that accepts every callback. *)
Definition accept_all (reqs : list FHE.DecryptionRequest) (requestId : Z)
    (cleartexts decryptionProof : bytes) : bool := true.

(** Modelled from the spec: the decryption oracle is an external service that
    "returns the plaintext(s) plus proof of correct decryption". The ideal
    verifier accepts a callback exactly when the request identifier is one
    the library saved and the cleartexts are the plaintexts of the two
    ciphertexts saved for it. *)
Definition kms_checkSignatures (reqs : list FHE.DecryptionRequest)
    (requestId : Z) (cleartexts decryptionProof : bytes) : bool :=
  match List.find (fun r => FHE.requestID r =? requestId) reqs with
  | Some r =>
      match abi_decode_uint32_pair cleartexts, FHE.requestedHandles r with
      | Some (y, n), [cy; cn] => (y =? dec32 cy) && (n =? dec32 cn)
      | _, _ => false
      end
  | None => false
  end.

Definition at_time (who : address) (now : Z) : Env :=
  {| msg_sender := who; block_timestamp := now |}.

Definition the_admin : address := 1000.
Definition alice : address := 1.
Definition bob : address := 2.
Definition carol : address := 3.
Definition dave : address := 4.
Definition oracle : address := 77.

(** Proposal 1 runs from time 100 to 150; alice and bob vote yes, carol
    votes no. *)
Definition three_votes : list (Env * Call) :=
  [ (at_time the_admin 100, CreateProposal "Plant trees" EmptyString 50);
    (at_time alice 110, SubmitVote 1 1);
    (at_time bob 120, SubmitVote 1 1);
    (at_time carol 130, SubmitVote 1 0) ].

Definition deployed : Storage := constructor (at_time the_admin 0).

(** Proposal 1 is closed and its reveal requested; proposal 2 is created
    before the oracle answers request 0 with the true plaintexts of proposal
    1's tallies. *)
Definition callback_after_new_proposal : list (Env * Call) :=
  three_votes ++
  [ (at_time the_admin 151, RevealResults 1);
    (at_time the_admin 160, CreateProposal "Clean rivers" EmptyString 50);
    (at_time oracle 170, ProcessResults 0 (abi_encode_uint32_pair 2 1) []) ].

Definition awaiting_reveal : Storage :=
  run accept_all (three_votes ++ [(at_time the_admin 151, RevealResults 1)])
    deployed.

Definition voting_over : Storage := run accept_all three_votes deployed.

(** ** The remaining view function and the vocabulary of the further properties *)

(** ** Memory arrays and loops of the view functions *)

(** A read or write past the end of a memory array panics with code 0x32. *)
Definition array_get (arr : list Z) (idx : Z) : result Z :=
  if (0 <=? idx) && (idx <? Z.of_nat (length arr))
  then Ok (default 0 (arr !! Z.to_nat idx))
  else Fail (Panic 50).

Definition array_set (arr : list Z) (idx v : Z) : result (list Z) :=
  if (0 <=? idx) && (idx <? Z.of_nat (length arr))
  then Ok (<[Z.to_nat idx := v]> arr)
  else Fail (Panic 50).

(** [for (uint32 i = start; cond; i++) body] where [cond] holds for exactly
    the next [iterations] values of [i]: the body runs on each of them and
    the increment that follows it is checked against [uint32]. *)
Fixpoint for_loop {A : Type} (iterations : nat) (i : Z)
    (body : Z -> A -> result A) (a : A) : result A :=
  match iterations with
  | O => Ok a
  | S rest =>
      let! a' := body i a in
      let! i' := checked_add max_uint32 i 1 in
      for_loop rest i' body a'
  end.

(** The condition [getActiveProposals] and [isVotingActive] test. *)
Definition voting_open (e : Env) (s : Storage) (i : Z) : bool :=
  active (proposal_at s i)
  && (startTime (proposal_at s i) <=? block_timestamp e)
  && (block_timestamp e <=? endTime (proposal_at s i)).

Definition getActiveProposals (e : Env) (s : Storage) : result (list Z) :=
  let activeProposals := replicate (Z.to_nat (currentProposalId s)) 0 in
  let count := 0 in
  let! found :=
    for_loop (Z.to_nat (currentProposalId s)) 1
      (fun i st =>
         let '(activeProposals, count) := st in
         if voting_open e s i then
           let! activeProposals := array_set activeProposals count i in
           let! count := checked_add max_uint32 count 1 in
           Ok (activeProposals, count)
         else Ok (activeProposals, count))
      (activeProposals, count) in
  let '(activeProposals, count) := found in
  let result := replicate (Z.to_nat count) 0 in
  for_loop (Z.to_nat count) 0
    (fun j result =>
       let! x := array_get activeProposals j in
       array_set result j x)
    result.

(** The ids [i], [i + 1], ... of [k] consecutive proposals. *)
Fixpoint zrange (i : Z) (k : nat) : list Z :=
  match k with
  | O => []
  | S k' => i :: zrange (i + 1) k'
  end.

(** The ids of the proposals created so far, in order of creation. *)
Definition proposal_ids (s : Storage) : list Z :=
  zrange 1 (Z.to_nat (currentProposalId s)).

(** ** What later transactions keep of a proposal *)

(** [keeps s s' pid]: going from [s] to [s'], proposal [pid] keeps its id,
    its metadata and its recorded votes; its voters array only grows at the
    end, by as many entries as [totalVoters] grows; a revealed proposal stays
    revealed; a proposal whose [active] flag is cleared stays cleared and
    keeps its tallies, voter count, voters and vote records. *)
Record keeps (s s' : Storage) (pid : Z) : Prop := {
  keeps_id : pid <= currentProposalId s';
  keeps_meta :
    title (proposal_at s' pid) = title (proposal_at s pid) /\
    description (proposal_at s' pid) = description (proposal_at s pid) /\
    startTime (proposal_at s' pid) = startTime (proposal_at s pid) /\
    endTime (proposal_at s' pid) = endTime (proposal_at s pid);
  keeps_voters :
    voters (proposal_at s pid) `prefix_of` voters (proposal_at s' pid);
  keeps_total :
    totalVoters (proposal_at s' pid) - totalVoters (proposal_at s pid)
    = Z.of_nat (length (voters (proposal_at s' pid)))
      - Z.of_nat (length (voters (proposal_at s pid)));
  keeps_votes :
    forall who,
      hasVoted (vote_at s pid who) = true ->
      vote_at s' pid who = vote_at s pid who;
  keeps_revealed :
    resultsRevealed (proposal_at s pid) = true ->
    resultsRevealed (proposal_at s' pid) = true;
  keeps_closed :
    active (proposal_at s pid) = false ->
    active (proposal_at s' pid) = false /\
    yesVotes (proposal_at s' pid) = yesVotes (proposal_at s pid) /\
    noVotes (proposal_at s' pid) = noVotes (proposal_at s pid) /\
    totalVoters (proposal_at s' pid) = totalVoters (proposal_at s pid) /\
    voters (proposal_at s' pid) = voters (proposal_at s pid) /\
    votes_at s' pid = votes_at s pid
}.

(** ** Well-formed storage *)

(** The vote records of a proposal whose encrypted choice holds [choice]. *)
Definition records_with (choice : Z) (s : Storage) (pid : Z) : gmap Z Vote :=
  filter (fun kv => dec8 (encryptedVote (snd kv)) = choice) (votes_at s pid).

Record wf_storage (s : Storage) : Prop := {
  wf_count : 0 <= currentProposalId s <= max_uint32;
  wf_window :
    forall pid, exists_in s pid ->
      startTime (proposal_at s pid) < endTime (proposal_at s pid)
      /\ endTime (proposal_at s pid) <= max_uint256
      /\ title (proposal_at s pid) <> EmptyString;
  wf_votes :
    forall pid who v, votes_at s pid !! who = Some v ->
      exists_in s pid /\
      startTime (proposal_at s pid) <= timestamp v
        <= endTime (proposal_at s pid) /\
      (dec8 (encryptedVote v) = 0 \/ dec8 (encryptedVote v) = 1);
  wf_tally :
    forall pid,
      dec32 (yesVotes (proposal_at s pid))
      = Z.of_nat (size (records_with 1 s pid)) /\
      dec32 (noVotes (proposal_at s pid))
      = Z.of_nat (size (records_with 0 s pid));
  wf_fresh :
    forall pid, currentProposalId s < pid ->
      proposal_at s pid = zero_Proposal /\ votes_at s pid = ∅
}.

(** The calls that carry the [onlyAdmin] modifier. *)
Definition admin_only (c : Call) : bool :=
  match c with
  | CreateProposal _ _ _ | RevealResults _ | EndProposal _ | TransferAdmin _ =>
      true
  | SubmitVote _ _ | ProcessResults _ _ _ => false
  end.

(** What holds of the storage before the first proposal is created, and of
    slot 0 of the proposals mapping, which is no proposal's id. *)
Record before_first (s : Storage) : Prop := {
  bf_count : 0 <= currentProposalId s;
  bf_requests : currentProposalId s = 0 -> decryptionRequests s = [];
  bf_slot0 : proposal_at s 0 = zero_Proposal
}.

(** The bodies of the two loops of [getActiveProposals]. *)
Definition scan_body (e : Env) (s : Storage) (i : Z) (st : list Z * Z)
    : result (list Z * Z) :=
  let '(activeProposals, count) := st in
  if voting_open e s i then
    let! activeProposals := array_set activeProposals count i in
    let! count := checked_add max_uint32 count 1 in
    Ok (activeProposals, count)
  else Ok (activeProposals, count).

Definition copy_body (activeProposals : list Z) (j : Z) (copied : list Z)
    : result (list Z) :=
  let! x := array_get activeProposals j in
  array_set copied j x.

(** * Lemmas *)

(** ** The oracle's encoding is read back by the contract's decoding *)

Lemma be_byte_value v i :
  Z.of_N (Byte.to_N (be_byte v i)) = (v / 256 ^ Z.of_nat (31 - i)) mod 256.
Proof.
  unfold be_byte.
  pose proof (Z.mod_pos_bound (v / 256 ^ Z.of_nat (31 - i)) 256 eq_refl) as Hb.
  destruct (Byte.of_N _) as [b|] eqn:E; simpl.
  - rewrite (Byte.to_of_N _ E). apply Z2N.id. lia.
  - apply Byte.of_N_None_iff in E. lia.
Qed.

Lemma be_word_snoc bs b :
  be_word (bs ++ [b]) = be_word bs * 256 + Z.of_N (Byte.to_N b).
Proof. unfold be_word. by rewrite fold_left_app. Qed.

Lemma be_word_prefix v k :
  0 <= v < 256 ^ 32 -> (k <= 32)%nat ->
  be_word (List.map (be_byte v) (seq 0 k)) = v / 256 ^ Z.of_nat (32 - k).
Proof.
  intros Hv. induction k as [|k IH]; intros Hk.
  - simpl. symmetry. apply Z.div_small. exact Hv.
  - rewrite seq_S, List.map_app. simpl.
    rewrite be_word_snoc, IH, be_byte_value by lia.
    replace (32 - k)%nat with (S (31 - k)) by lia.
    replace (32 - S k)%nat with (31 - k)%nat by lia.
    rewrite Nat2Z.inj_succ, Z.pow_succ_r by lia.
    set (d := 256 ^ Z.of_nat (31 - k)).
    assert (Hd : 0 < d) by (apply Z.pow_pos_nonneg; lia).
    rewrite (Z.mul_comm 256 d), <- Z.div_div by lia.
    pose proof (Z.div_mod (v / d) 256). lia.
Qed.

Lemma be_word_abi_word v : 0 <= v < 256 ^ 32 -> be_word (abi_word v) = v.
Proof.
  intros Hv. unfold abi_word. rewrite be_word_prefix by (done || lia).
  simpl. apply Z.div_1_r.
Qed.

Lemma abi_word_length v : length (abi_word v) = 32%nat.
Proof. unfold abi_word. by rewrite length_map, length_seq. Qed.

Lemma abi_decode_encode y n :
  0 <= y <= max_uint32 -> 0 <= n <= max_uint32 ->
  abi_decode_uint32_pair (abi_encode_uint32_pair y n) = Some (y, n).
Proof.
  intros Hy Hn. unfold abi_decode_uint32_pair, abi_encode_uint32_pair.
  rewrite length_app, !abi_word_length. simpl (Z.of_nat _ <? 64).
  cbv iota.
  rewrite (take_app_length' (abi_word y) (abi_word n) 32 (abi_word_length y)).
  rewrite (drop_app_length' (abi_word y) (abi_word n) 32 (abi_word_length y)).
  rewrite firstn_all2 by (rewrite abi_word_length; lia).
  unfold max_uint32 in *.
  rewrite !be_word_abi_word by lia.
  destruct (Z.leb_spec y (2 ^ 32 - 1)); [|lia].
  destruct (Z.leb_spec n (2 ^ 32 - 1)); [|lia]. done.
Qed.

(** ** Reading the storage after a write *)

Lemma proposal_at_update_eq pid f s :
  proposal_at (update_proposal pid f s) pid = f (proposal_at s pid).
Proof. unfold proposal_at at 1, update_proposal. simpl. by rewrite lookup_insert_eq. Qed.

Lemma proposal_at_update_ne pid q f s :
  pid ≠ q -> proposal_at (update_proposal pid f s) q = proposal_at s q.
Proof.
  intros Hne. unfold proposal_at, update_proposal. simpl.
  by rewrite lookup_insert_ne.
Qed.

Lemma votes_at_write_eq pid who v s :
  votes_at (write_vote pid who v s) pid = <[who := v]> (votes_at s pid).
Proof. unfold votes_at at 1, write_vote. simpl. by rewrite lookup_insert_eq. Qed.

Lemma votes_at_write_ne pid q who v s :
  pid ≠ q -> votes_at (write_vote pid who v s) q = votes_at s q.
Proof.
  intros Hne. unfold votes_at, write_vote. simpl. by rewrite lookup_insert_ne.
Qed.

Lemma proposal_at_write_vote pid q who v s :
  proposal_at (write_vote pid who v s) q = proposal_at s q.
Proof. reflexivity. Qed.

Lemma vote_at_None s pid who :
  votes_at s pid !! who = None -> vote_at s pid who = zero_Vote.
Proof. unfold vote_at. by intros ->. Qed.

Lemma vote_at_Some s pid who v :
  votes_at s pid !! who = Some v -> vote_at s pid who = v.
Proof. unfold vote_at. by intros ->. Qed.

(** ** What an accepted call has checked and written *)

Lemma require_Ok {A : Type} (c : bool) (msg : string) (k : result A) (a : A) :
  require_ c msg k = Ok a -> c = true /\ k = Ok a.
Proof. destruct c; simpl; [auto | discriminate]. Qed.

Lemma checked_add_Ok max a b n :
  checked_add max a b = Ok n -> n = a + b /\ a + b <= max.
Proof.
  unfold checked_add. destruct (a + b <=? max) eqn:Hle; [|discriminate].
  intros [= <-]. split; [done | lia].
Qed.

Lemma proposalExists_Ok {A : Type} pid s (k : result A) a :
  proposalExists pid s k = Ok a -> exists_in s pid /\ k = Ok a.
Proof.
  unfold proposalExists, exists_in. intros [Hc Hk]%require_Ok.
  apply andb_true_iff in Hc as [?%Z.ltb_lt ?%Z.leb_le]. auto.
Qed.

Lemma onlyAdmin_Ok {A : Type} e s (k : result A) a :
  onlyAdmin e s k = Ok a -> msg_sender e = admin s /\ k = Ok a.
Proof.
  unfold onlyAdmin. intros [Hc Hk]%require_Ok. apply Z.eqb_eq in Hc. auto.
Qed.

Lemma submitVote_Ok e pid v s s' evs :
  submitVote e pid v s = Ok (s', evs) ->
  (exists_in s pid /\
   active (proposal_at s pid) = true /\
   startTime (proposal_at s pid) <= block_timestamp e <= endTime (proposal_at s pid) /\
   (v = 0 \/ v = 1) /\
   hasVoted (vote_at s pid (msg_sender e)) = false /\
   totalVoters (proposal_at s pid) + 1 <= max_uint32) /\
  (admin s' = admin s /\
   currentProposalId s' = currentProposalId s /\
   decryptionRequests s' = decryptionRequests s) /\
  proposal_at s' pid = after_vote (msg_sender e) v (proposal_at s pid) /\
  votes_at s' pid =
    <[msg_sender e := {| encryptedVote := FHE.asEuint8 v; hasVoted := true;
                         timestamp := block_timestamp e |}]> (votes_at s pid) /\
  (forall q, q ≠ pid ->
     proposal_at s' q = proposal_at s q /\ votes_at s' q = votes_at s q) /\
  evs = [VoteSubmitted (msg_sender e) pid].
Proof.
  unfold submitVote, proposalActive.
  intros [Hex H]%proposalExists_Ok.
  apply require_Ok in H as [Hact H].
  apply require_Ok in H as [Hst%Z.leb_le H].
  apply require_Ok in H as [Hen%Z.leb_le H].
  apply require_Ok in H as [Hv H].
  apply require_Ok in H as [Hnv%negb_true_iff H].
  cbv zeta in H. unfold bind in H.
  destruct (checked_add _ _ _) as [n|] eqn:Hadd; [|discriminate].
  apply checked_add_Ok in Hadd as [-> Hle].
  rewrite proposal_at_update_eq, proposal_at_write_vote in Hle. simpl in Hle.
  injection H as <- <-.
  assert (Hv' : v = 0 \/ v = 1).
  { apply orb_true_iff in Hv as [?%Z.eqb_eq | ?%Z.eqb_eq]; auto. }
  split; [unfold exists_in in *; repeat split; auto; lia|].
  split; [by destruct (v =? 1)|].
  split.
  { unfold after_vote. destruct (v =? 1);
      rewrite !proposal_at_update_eq, !proposal_at_write_vote;
      by destruct (proposal_at s pid). }
  split.
  { destruct (v =? 1); unfold update_proposal; simpl;
      apply votes_at_write_eq. }
  split; [|done].
  intros q Hq.
  destruct (v =? 1);
    (split;
     [rewrite !proposal_at_update_ne by done; done
     |unfold update_proposal; simpl; by apply votes_at_write_ne]).
Qed.

Lemma createProposal_Ok e t d dur s s' evs :
  createProposal e t d dur s = Ok (s', evs) ->
  (msg_sender e = admin s /\ t ≠ EmptyString /\ 0 < dur /\
   currentProposalId s + 1 <= max_uint32 /\
   block_timestamp e + dur <= max_uint256) /\
  (admin s' = admin s /\
   currentProposalId s' = currentProposalId s + 1 /\
   votes s' = votes s /\
   decryptionRequests s' = decryptionRequests s) /\
  proposal_at s' (currentProposalId s + 1) = new_proposal e t d dur /\
  (forall q, q ≠ currentProposalId s + 1 ->
     proposal_at s' q = proposal_at s q) /\
  evs = [ProposalCreated (currentProposalId s + 1) t (block_timestamp e)
           (block_timestamp e + dur)].
Proof.
  unfold createProposal.
  intros [Hadm H]%onlyAdmin_Ok.
  apply require_Ok in H as [Ht%Z.ltb_lt H].
  apply require_Ok in H as [Hd%Z.ltb_lt H].
  unfold bind in H.
  destruct (checked_add max_uint32 _ _) as [n|] eqn:Hid; [|discriminate].
  apply checked_add_Ok in Hid as [-> Hid]. cbv zeta in H.
  destruct (checked_add max_uint256 _ _) as [n|] eqn:Hend; [|discriminate].
  apply checked_add_Ok in Hend as [-> Hend].
  injection H as <- <-. simpl.
  split.
  { repeat split; auto. intros ->. simpl in Ht. lia. }
  split; [done|].
  split.
  { unfold proposal_at. simpl. by rewrite lookup_insert_eq. }
  split; [|done].
  intros q Hq. unfold proposal_at. simpl. by rewrite lookup_insert_ne.
Qed.

Lemma endProposal_Ok e pid s s' evs :
  endProposal e pid s = Ok (s', evs) ->
  (exists_in s pid /\ msg_sender e = admin s /\
   active (proposal_at s pid) = true) /\
  s' = update_proposal pid (set_active false) s /\
  evs = [ProposalEnded pid].
Proof.
  unfold endProposal.
  intros [Hex H]%proposalExists_Ok.
  apply onlyAdmin_Ok in H as [Hadm H].
  apply require_Ok in H as [Hact H].
  by injection H as <- <-.
Qed.

Lemma transferAdmin_Ok e a s s' evs :
  transferAdmin e a s = Ok (s', evs) ->
  (msg_sender e = admin s /\ a ≠ 0) /\ s' = set_admin a s /\ evs = [].
Proof.
  unfold transferAdmin.
  intros [Hadm H]%onlyAdmin_Ok.
  apply require_Ok in H as [Hz%negb_true_iff H].
  apply Z.eqb_neq in Hz. by injection H as <- <-.
Qed.

Lemma revealResults_Ok e pid s s' evs :
  revealResults e pid s = Ok (s', evs) ->
  (exists_in s pid /\ endTime (proposal_at s pid) < block_timestamp e /\
   msg_sender e = admin s /\ resultsRevealed (proposal_at s pid) = false) /\
  s' = set_decryptionRequests
         (decryptionRequests s ++ [reveal_request pid s]) s /\
  evs = [].
Proof.
  unfold revealResults, proposalEnded.
  intros [Hex H]%proposalExists_Ok.
  apply require_Ok in H as [Hend%Z.ltb_lt H].
  apply onlyAdmin_Ok in H as [Hadm H].
  apply require_Ok in H as [Hrev%negb_true_iff H].
  by injection H as <- <-.
Qed.

Section CallbackFacts.

Variable checkSignatures :
  list FHE.DecryptionRequest -> Z -> bytes -> bytes -> bool.

Lemma processResults_Ok e rid ct pf s s' evs :
  processResults checkSignatures e rid ct pf s = Ok (s', evs) ->
  checkSignatures (decryptionRequests s) rid ct pf = true /\
  exists y n,
    abi_decode_uint32_pair ct = Some (y, n) /\
    s' = update_proposal (currentProposalId s) (set_active false)
           (update_proposal (currentProposalId s)
              (set_resultsRevealed true) s) /\
    evs = [ResultsRevealed (currentProposalId s) y n;
           ProposalEnded (currentProposalId s)].
Proof.
  unfold processResults.
  destruct (checkSignatures _ _ _ _); [|discriminate].
  destruct (abi_decode_uint32_pair ct) as [[y n]|]; [|discriminate].
  intros [= <- <-]. split; [done|]. by exists y, n.
Qed.

Lemma processResults_accepts e rid ct pf s y n :
  checkSignatures (decryptionRequests s) rid ct pf = true ->
  abi_decode_uint32_pair ct = Some (y, n) ->
  processResults checkSignatures e rid ct pf s =
    Ok (update_proposal (currentProposalId s) (set_active false)
          (update_proposal (currentProposalId s)
             (set_resultsRevealed true) s),
        [ResultsRevealed (currentProposalId s) y n;
         ProposalEnded (currentProposalId s)]).
Proof. unfold processResults. by intros -> ->. Qed.

End CallbackFacts.

Lemma votes_at_constructor e pid : votes_at (constructor e) pid = ∅.
Proof. unfold votes_at. simpl. by rewrite lookup_empty. Qed.

Lemma proposal_at_constructor e pid :
  proposal_at (constructor e) pid = zero_Proposal.
Proof. unfold proposal_at. simpl. by rewrite lookup_empty. Qed.

Lemma storage_inv_constructor e : storage_inv (constructor e).
Proof.
  split; [done|]. intros pid.
  split; rewrite ?votes_at_constructor, ?proposal_at_constructor; try done.
  split; [constructor|]. intros who. simpl. split.
  - by intros ?%elem_of_nil.
  - intros [? H]. by rewrite lookup_empty in H.
Qed.

(** A write that leaves the tallies, the voter count and the vote records of
    a proposal alone, and can only clear its [active] flag, keeps the
    proposal's invariant. *)
Lemma proposal_inv_transfer s s' pid :
  votes_at s' pid = votes_at s pid ->
  (exists_in s pid -> exists_in s' pid) ->
  yesVotes (proposal_at s' pid) = yesVotes (proposal_at s pid) ->
  noVotes (proposal_at s' pid) = noVotes (proposal_at s pid) ->
  totalVoters (proposal_at s' pid) = totalVoters (proposal_at s pid) ->
  voters (proposal_at s' pid) = voters (proposal_at s pid) ->
  (active (proposal_at s' pid) = true ->
   active (proposal_at s pid) = true /\
   resultsRevealed (proposal_at s' pid) = resultsRevealed (proposal_at s pid)) ->
  proposal_inv s pid -> proposal_inv s' pid.
Proof.
  intros Hv Hex Hy Hn Ht Hl Hact [].
  split; rewrite ?Hv, ?Hy, ?Hn, ?Ht, ?Hl; auto.
  - intros Hnex. destruct inv_fresh0 as [He Ha]; [tauto|].
    split; [done|].
    destruct (active (proposal_at s' pid)) eqn:E; [|done].
    destruct (Hact eq_refl) as [Ha' _]. congruence.
  - intros E. destruct (Hact E) as [Ha ->]. auto.
Qed.

Lemma proposal_inv_same s s' pid :
  votes_at s' pid = votes_at s pid ->
  proposal_at s' pid = proposal_at s pid ->
  (exists_in s pid -> exists_in s' pid) ->
  proposal_inv s pid -> proposal_inv s' pid.
Proof.
  intros Hv Hp Hex. apply proposal_inv_transfer; rewrite ?Hp; auto.
Qed.

Lemma proposal_inv_clear_active s pid q (f : Proposal -> Proposal) :
  (forall p, yesVotes (f p) = yesVotes p /\ noVotes (f p) = noVotes p /\
             totalVoters (f p) = totalVoters p /\ voters (f p) = voters p /\
             (active (f p) = true ->
              active p = true /\ resultsRevealed (f p) = resultsRevealed p)) ->
  proposal_inv s q -> proposal_inv (update_proposal pid f s) q.
Proof.
  intros Hf. destruct (decide (pid = q)) as [->|Hne].
  - apply proposal_inv_transfer; rewrite ?proposal_at_update_eq;
      try apply Hf; done.
  - apply proposal_inv_same; [done | by apply proposal_at_update_ne | done].
Qed.

Lemma storage_inv_createProposal e t d dur s s' evs :
  createProposal e t d dur s = Ok (s', evs) ->
  storage_inv s -> storage_inv s'.
Proof.
  intros (_ & (_ & Hid & Hvotes & _) & Hnew & Hold & _)%createProposal_Ok
         [Hpos Hinv].
  split; [lia|]. intros q.
  assert (Hv : votes_at s' q = votes_at s q) by (unfold votes_at; by rewrite Hvotes).
  destruct (decide (q = currentProposalId s + 1)) as [->|Hne].
  - destruct (Hinv (currentProposalId s + 1)) as [_ _ _ _ _ _ Hfresh _].
    destruct Hfresh as [Hempty _]; [unfold exists_in; lia|].
    split; rewrite ?Hv, ?Hnew, ?Hempty; try done.
    + split; [constructor|]. intros who. simpl. split.
      * by intros ?%elem_of_nil.
      * intros [? H]. by rewrite lookup_empty in H.
    + unfold exists_in. lia.
  - apply proposal_inv_same with s; auto.
    unfold exists_in. lia.
Qed.

Lemma not_voted_no_record s pid who :
  proposal_inv s pid ->
  hasVoted (vote_at s pid who) = false -> votes_at s pid !! who = None.
Proof.
  intros Hinv Hnv.
  destruct (votes_at s pid !! who) as [v|] eqn:E; [|done].
  rewrite (vote_at_Some _ _ _ _ E) in Hnv.
  rewrite (inv_records _ _ Hinv _ _ E) in Hnv. discriminate.
Qed.

Lemma storage_inv_submitVote e pid v s s' evs :
  submitVote e pid v s = Ok (s', evs) ->
  storage_inv s -> storage_inv s'.
Proof.
  intros ((Hex & Hact & _ & Hv & Hnv & Hle) & (_ & Hid & _) & Hp & Hm & Hfr & _)
         %submitVote_Ok [Hpos Hinv].
  split; [lia|]. intros q.
  destruct (decide (q = pid)) as [->|Hne].
  - pose proof (Hinv pid) as Hi.
    pose proof (not_voted_no_record _ _ _ Hi Hnv) as Hnone.
    destruct Hi as [Ht Hy Hn Hrec Hcnt [Hnd Hvs] _ Hfl].
    split; rewrite ?Hp, ?Hm; simpl.
    + destruct Hv as [-> | ->]; simpl;
        rewrite Z.mod_small by (unfold max_uint32 in Hle; lia); lia.
    + destruct Hv as [-> | ->]; simpl; [done|].
      rewrite Z.mod_small by (unfold max_uint32 in Hle; lia); lia.
    + destruct Hv as [-> | ->]; simpl; [|done].
      rewrite Z.mod_small by (unfold max_uint32 in Hle; lia); lia.
    + intros who w. rewrite lookup_insert.
      case_decide; [by intros [= <-] | eauto].
    + rewrite map_size_insert_None by done. lia.
    + split.
      * apply NoDup_app. split; [done|]. split; [|apply NoDup_singleton].
        intros x Hx ->%list_elem_of_singleton.
        apply Hvs in Hx as [? Hx]. congruence.
      * intros who. rewrite elem_of_app, list_elem_of_singleton, lookup_insert.
        case_decide as Hd.
        -- subst who. split; [eauto | auto].
        -- rewrite Hvs. split; [by intros [? | ?] | auto].
    + intros Hnex. exfalso. apply Hnex. unfold exists_in in *. lia.
    + done.
  - destruct (Hfr q Hne) as [Hpq Hvq].
    apply proposal_inv_same with s; auto.
    unfold exists_in. lia.
Qed.

Lemma storage_inv_update_flags pid f s :
  (forall p, yesVotes (f p) = yesVotes p /\ noVotes (f p) = noVotes p /\
             totalVoters (f p) = totalVoters p /\ voters (f p) = voters p /\
             (active (f p) = true ->
              active p = true /\ resultsRevealed (f p) = resultsRevealed p)) ->
  storage_inv s -> storage_inv (update_proposal pid f s).
Proof.
  intros Hf [Hpos Hinv]. split; [done|].
  intros q. by apply proposal_inv_clear_active.
Qed.

Lemma set_active_false_flags p :
  yesVotes (set_active false p) = yesVotes p /\
  noVotes (set_active false p) = noVotes p /\
  totalVoters (set_active false p) = totalVoters p /\
  voters (set_active false p) = voters p /\
  (active (set_active false p) = true ->
   active p = true /\
   resultsRevealed (set_active false p) = resultsRevealed p).
Proof. repeat split; done. Qed.

Lemma set_revealed_then_inactive_flags p :
  let p' := set_active false (set_resultsRevealed true p) in
  yesVotes p' = yesVotes p /\ noVotes p' = noVotes p /\
  totalVoters p' = totalVoters p /\ voters p' = voters p /\
  (active p' = true -> active p = true /\ resultsRevealed p' = resultsRevealed p).
Proof. repeat split; done. Qed.

Lemma update_proposal_twice pid f g s :
  update_proposal pid g (update_proposal pid f s)
  = update_proposal pid (fun p => g (f p)) s.
Proof.
  unfold update_proposal at 1 3. rewrite proposal_at_update_eq.
  unfold update_proposal, set_proposals. simpl. by rewrite insert_insert_eq.
Qed.

Lemma same_data_update_flags pid (f : Proposal -> Proposal) s q :
  (forall p, same_data p (f p)) ->
  same_data (proposal_at s q) (proposal_at (update_proposal pid f s) q).
Proof.
  intros Hf. destruct (decide (pid = q)) as [<-|Hne].
  - rewrite proposal_at_update_eq. apply Hf.
  - rewrite proposal_at_update_ne by done. by repeat split.
Qed.

Section Runs.

Variable checkSignatures :
  list FHE.DecryptionRequest -> Z -> bytes -> bytes -> bool.

Lemma storage_inv_exec e c s s' evs :
  exec checkSignatures e c s = Ok (s', evs) ->
  storage_inv s -> storage_inv s'.
Proof.
  destruct c as [t d dur | pid v | pid | rid ct pf | pid | a]; simpl.
  - apply storage_inv_createProposal.
  - apply storage_inv_submitVote.
  - intros (_ & -> & _)%revealResults_Ok [Hpos Hinv]. split; [done|].
    intros q. by apply proposal_inv_same with s.
  - intros (_ & y & n & _ & -> & _)%processResults_Ok.
    rewrite update_proposal_twice.
    apply storage_inv_update_flags. intros p.
    apply set_revealed_then_inactive_flags.
  - intros (_ & -> & _)%endProposal_Ok.
    apply storage_inv_update_flags, set_active_false_flags.
  - intros (_ & -> & _)%transferAdmin_Ok [Hpos Hinv]. split; [done|].
    intros q. by apply proposal_inv_same with s.
Qed.

Lemma storage_inv_step s tx :
  storage_inv s -> storage_inv (step checkSignatures s tx).
Proof.
  intros Hinv. unfold step.
  destruct (exec _ _ _ s) as [[s' evs]|] eqn:E; [|done].
  by eapply storage_inv_exec.
Qed.

Lemma storage_inv_run txs s :
  storage_inv s -> storage_inv (run checkSignatures txs s).
Proof.
  revert s. induction txs as [|tx txs IH]; intros s Hinv; simpl; [done|].
  apply IH, storage_inv_step, Hinv.
Qed.

Lemma storage_inv_reachable deployer txs :
  storage_inv (run checkSignatures txs (constructor deployer)).
Proof. apply storage_inv_run, storage_inv_constructor. Qed.

End Runs.

Lemma submitVote_accepts e pid v s :
  exists_in s pid ->
  active (proposal_at s pid) = true ->
  startTime (proposal_at s pid) <= block_timestamp e
    <= endTime (proposal_at s pid) ->
  v = 0 \/ v = 1 ->
  hasVoted (vote_at s pid (msg_sender e)) = false ->
  totalVoters (proposal_at s pid) + 1 <= max_uint32 ->
  exists s', submitVote e pid v s = Ok (s', [VoteSubmitted (msg_sender e) pid]).
Proof.
  intros [Hlo Hhi] Hact [Hst Hen] Hv Hnv Hle.
  apply Z.ltb_lt in Hlo. apply Z.leb_le in Hhi, Hst, Hen, Hle.
  unfold submitVote, proposalExists, proposalActive, require_.
  rewrite Hlo, Hhi, Hact, Hst, Hen, Hnv. simpl.
  assert (Hv' : (v =? 0) || (v =? 1) = true) by (by destruct Hv as [-> | ->]).
  rewrite Hv'. rewrite proposal_at_update_eq, proposal_at_write_vote. simpl.
  unfold checked_add. rewrite Hle. simpl. eauto.
Qed.

(** * Claims *)

(** C1, on the code. The callback for request 0, which was issued for
    proposal 1, passes the ideal signature check and is applied to proposal
    2: proposal 1 stays unrevealed and active, proposal 2 (no votes, voting
    window still open) is marked revealed and closed. The contract stores no
    request-to-proposal mapping; [processResults] takes [currentProposalId]. *)
Theorem callback_routed_to_latest_proposal :
  let before :=
    run kms_checkSignatures (firstn 6 callback_after_new_proposal) deployed in
  let s := run kms_checkSignatures callback_after_new_proposal deployed in
  List.map (fun r => (FHE.requestID r, FHE.issuedFor r)) (decryptionRequests before)
  = [(0, 1)] /\
  processResults kms_checkSignatures (at_time oracle 170) 0
    (abi_encode_uint32_pair 2 1) [] before
  = Ok (s, [ResultsRevealed 2 2 1; ProposalEnded 2]) /\
  resultsRevealed (proposal_at s 1) = false /\
  active (proposal_at s 1) = true /\
  resultsRevealed (proposal_at s 2) = true /\
  active (proposal_at s 2) = false /\
  totalVoters (proposal_at s 2) = 0.
Proof. vm_compute. repeat split; reflexivity. Qed.

(** C2, as the code has it. The handler makes no comparison between the
    decoded values and [totalVoters]: a callback whose signatures verify and
    whose cleartexts decode is accepted whatever the decoded values are, it
    marks a proposal revealed and closed, and the storage it leaves does not
    depend on the decoded values. *)
Theorem callback_not_cross_checked
    (checkSignatures : list FHE.DecryptionRequest -> Z -> bytes -> bytes -> bool)
    (e : Env) (requestId : Z) (cleartexts decryptionProof : bytes)
    (s : Storage) (y n : Z) :
  checkSignatures (decryptionRequests s) requestId cleartexts decryptionProof
  = true ->
  abi_decode_uint32_pair cleartexts = Some (y, n) ->
  exists s' pid,
    processResults checkSignatures e requestId cleartexts decryptionProof s
    = Ok (s', [ResultsRevealed pid y n; ProposalEnded pid]) /\
    resultsRevealed (proposal_at s' pid) = true /\
    active (proposal_at s' pid) = false /\
    totalVoters (proposal_at s' pid) = totalVoters (proposal_at s pid) /\
    forall e2 requestId2 cleartexts2 decryptionProof2 s2 evs2,
      processResults checkSignatures e2 requestId2 cleartexts2
        decryptionProof2 s = Ok (s2, evs2) ->
      s2 = s'.
Proof.
  intros Hchk Hdec. eexists _, (currentProposalId s).
  split; [by apply processResults_accepts|].
  rewrite update_proposal_twice, proposal_at_update_eq.
  repeat split; try done.
  intros e2 rid2 ct2 pf2 s2 evs2 (_ & y2 & n2 & _ & -> & _)%processResults_Ok.
  by rewrite update_proposal_twice.
Qed.

Lemma callback_not_cross_checked_witness :
  exists s' pid,
    processResults accept_all (at_time oracle 160) 0
      (abi_encode_uint32_pair 3 1) [] awaiting_reveal
    = Ok (s', [ResultsRevealed pid 3 1; ProposalEnded pid]) /\
    resultsRevealed (proposal_at s' pid) = true.
Proof.
  destruct (callback_not_cross_checked accept_all (at_time oracle 160) 0
              (abi_encode_uint32_pair 3 1) [] awaiting_reveal 3 1)
    as (s' & pid & Hok & Hrev & _).
  - reflexivity.
  - vm_compute. reflexivity.
  - exists s', pid. split; [exact Hok | exact Hrev].
Defined.

(** C2, as claimed, fails: three voters are recorded, the callback delivers
    3 yes and 1 no, its signatures are accepted, and the proposal goes from
    unrevealed to revealed. *)
Lemma mismatching_callback_accepted :
  totalVoters (proposal_at awaiting_reveal 1) = 3 /\
  resultsRevealed (proposal_at awaiting_reveal 1) = false /\
  abi_decode_uint32_pair (abi_encode_uint32_pair 3 1) = Some (3, 1) /\
  3 + 1 <> totalVoters (proposal_at awaiting_reveal 1) /\
  exists s',
    processResults accept_all (at_time oracle 160) 0
      (abi_encode_uint32_pair 3 1) [] awaiting_reveal
    = Ok (s', [ResultsRevealed 1 3 1; ProposalEnded 1]) /\
    resultsRevealed (proposal_at s' 1) = true.
Proof.
  split; [vm_compute; reflexivity|].
  split; [vm_compute; reflexivity|].
  split; [vm_compute; reflexivity|].
  split; [vm_compute; discriminate|].
  eexists. split; vm_compute; reflexivity.
Qed.

(** C3, on the code: the claim fails, against what the repository says of
    itself (ballots encrypted before they leave the browser, a front end
    calling [submitVote(uint32, bytes encryptedVote)], a vote record typed
    [euint8] and released to the voter alone). The contract's [submitVote]
    receives the vote as a plaintext [uint8] and inspects it: only the
    values 0 and 1 are accepted, and the value decides which encrypted
    counter is incremented ([yesVotes] for 1, [noVotes] for 0) and what is
    encrypted into the vote record. What does hold: whether a vote is
    accepted does not depend on which of the two values it carries, and two
    accepted submissions that differ only in the value emit the same events
    and leave the same plaintext storage. *)
Theorem submitVote_takes_plaintext_choice (e : Env) (pid : Z) (s : Storage) :
  (forall v s' evs, submitVote e pid v s = Ok (s', evs) -> v = 0 \/ v = 1) /\
  ((exists r, submitVote e pid 0 s = Ok r)
   <-> (exists r, submitVote e pid 1 s = Ok r)) /\
  (forall s0 ev0 s1 ev1,
     submitVote e pid 0 s = Ok (s0, ev0) ->
     submitVote e pid 1 s = Ok (s1, ev1) ->
     (ev0 = ev1 /\ admin s0 = admin s1 /\
      currentProposalId s0 = currentProposalId s1 /\
      (forall q,
         plain_proposal (proposal_at s0 q) = plain_proposal (proposal_at s1 q)) /\
      (forall q who,
         plain_vote (vote_at s0 q who) = plain_vote (vote_at s1 q who))) /\
     (yesVotes (proposal_at s1 pid)
      = FHE.add (yesVotes (proposal_at s pid)) (FHE.asEuint32 1) /\
      noVotes (proposal_at s1 pid) = noVotes (proposal_at s pid) /\
      encryptedVote (vote_at s1 pid (msg_sender e)) = FHE.asEuint8 1) /\
     (yesVotes (proposal_at s0 pid) = yesVotes (proposal_at s pid) /\
      noVotes (proposal_at s0 pid)
      = FHE.add (noVotes (proposal_at s pid)) (FHE.asEuint32 1) /\
      encryptedVote (vote_at s0 pid (msg_sender e)) = FHE.asEuint8 0)).
Proof.
  split; [|split].
  - intros v s' evs ((_ & _ & _ & Hv & _) & _)%submitVote_Ok. exact Hv.
  - split; intros [[s' evs] ((Hex & Hact & Hw & _ & Hnv & Hle) & _)%submitVote_Ok].
    + destruct (submitVote_accepts e pid 1 s) as [s1 H1]; eauto.
    + destruct (submitVote_accepts e pid 0 s) as [s0 H0]; eauto.
  - intros s0 ev0 s1 ev1
      (_ & (Ha0 & Hi0 & _) & Hp0 & Hm0 & Hfr0 & ->)%submitVote_Ok
      (_ & (Ha1 & Hi1 & _) & Hp1 & Hm1 & Hfr1 & ->)%submitVote_Ok.
    split; [|split].
    + split; [done|]. split; [congruence|]. split; [congruence|]. split.
      * intros q. destruct (decide (q = pid)) as [->|Hq].
        -- by rewrite Hp0, Hp1.
        -- destruct (Hfr0 q Hq) as [-> _]. destruct (Hfr1 q Hq) as [-> _]. done.
      * intros q who. unfold vote_at. destruct (decide (q = pid)) as [->|Hq].
        -- rewrite Hm0, Hm1, !lookup_insert. by case_decide.
        -- destruct (Hfr0 q Hq) as [_ ->]. destruct (Hfr1 q Hq) as [_ ->]. done.
    + rewrite Hp1. unfold vote_at. rewrite Hm1, lookup_insert_eq. done.
    + rewrite Hp0. unfold vote_at. rewrite Hm0, lookup_insert_eq. done.
Qed.

Lemma submitVote_takes_plaintext_choice_witness :
  exists s0 s1,
    submitVote (at_time dave 140) 1 0 voting_over
    = Ok (s0, [VoteSubmitted dave 1]) /\
    submitVote (at_time dave 140) 1 1 voting_over
    = Ok (s1, [VoteSubmitted dave 1]) /\
    plain_proposal (proposal_at s0 1) = plain_proposal (proposal_at s1 1) /\
    noVotes (proposal_at s1 1) = noVotes (proposal_at voting_over 1) /\
    yesVotes (proposal_at s0 1) = yesVotes (proposal_at voting_over 1).
Proof.
  destruct (submitVote_accepts (at_time dave 140) 1 0 voting_over)
    as [s0 H0];
    [vm_compute; split; (reflexivity || discriminate)
    |vm_compute; reflexivity
    |vm_compute; split; discriminate
    |left; reflexivity
    |vm_compute; reflexivity
    |vm_compute; discriminate
    |].
  destruct (submitVote_accepts (at_time dave 140) 1 1 voting_over)
    as [s1 H1];
    [vm_compute; split; (reflexivity || discriminate)
    |vm_compute; reflexivity
    |vm_compute; split; discriminate
    |right; reflexivity
    |vm_compute; reflexivity
    |vm_compute; discriminate
    |].
  destruct (submitVote_takes_plaintext_choice (at_time dave 140) 1 voting_over)
    as (_ & _ & Hpair).
  destruct (Hpair s0 _ s1 _ H0 H1)
    as ((_ & _ & _ & Hplain & _) & (_ & Hno & _) & (Hyes & _)).
  exists s0, s1. split; [exact H0|]. split; [exact H1|].
  split; [exact (Hplain 1)|]. split; [exact Hno | exact Hyes].
Defined.

(** C3 at one submission: dave's three calls are the same transaction but
    for the value passed in the clear. Value 2 is turned down for being
    neither 0 nor 1; values 0 and 1 are both accepted with the same event,
    and the storage shows which was sent: 0 replaces the [noVotes] counter
    only, 1 replaces the [yesVotes] counter only. *)
Lemma submitVote_shows_choice :
  observe_submitVote (at_time dave 140) 1 0 voting_over
  = inr ([VoteSubmitted dave 1], (false, true)) /\
  observe_submitVote (at_time dave 140) 1 1 voting_over
  = inr ([VoteSubmitted dave 1], (true, false)) /\
  observe_submitVote (at_time dave 140) 1 2 voting_over
  = inl (Revert "Vote must be 0 (no) or 1 (yes)") /\
  observe_submitVote (at_time dave 140) 1 0 voting_over
  <> observe_submitVote (at_time dave 140) 1 1 voting_over.
Proof.
  repeat split; try (vm_compute; reflexivity).
  vm_compute. discriminate.
Qed.


(** C4, as the code has it. [revealResults] is accepted only when the
    proposal exists, the block time is past its [endTime], the caller is the
    admin and [resultsRevealed] is still false; the [active] flag is not
    consulted. An accepted call saves one decryption request and writes
    nothing to the contract's own storage, so the admin's next call for the
    same proposal is accepted again; once [resultsRevealed] is set the call
    fails. *)
Theorem revealResults_guards (e : Env) (pid : Z) (s : Storage) :
  (forall s' evs,
     revealResults e pid s = Ok (s', evs) ->
     (exists_in s pid /\ endTime (proposal_at s pid) < block_timestamp e /\
      msg_sender e = admin s /\ resultsRevealed (proposal_at s pid) = false) /\
     (admin s' = admin s /\ currentProposalId s' = currentProposalId s /\
      proposals s' = proposals s /\ votes s' = votes s) /\
     decryptionRequests s' = decryptionRequests s ++ [reveal_request pid s] /\
     forall e2,
       msg_sender e2 = admin s ->
       endTime (proposal_at s pid) < block_timestamp e2 ->
       exists s'', revealResults e2 pid s' = Ok (s'', [])) /\
  (resultsRevealed (proposal_at s pid) = true ->
   exists f, revealResults e pid s = Fail f).
Proof.
  split.
  - intros s' evs ((Hex & Hend & Hadm & Hrev) & -> & _)%revealResults_Ok.
    split; [done|]. split; [done|]. split; [done|].
    intros e2 Hadm2 Hend2.
    destruct Hex as [Hlo Hhi].
    apply Z.ltb_lt in Hlo, Hend2. apply Z.leb_le in Hhi.
    apply Z.eqb_eq in Hadm2.
    unfold revealResults, proposalExists, proposalEnded, onlyAdmin, require_.
    simpl. unfold proposal_at in *. simpl.
    rewrite Hlo, Hhi, Hend2, Hadm2, Hrev. simpl. eauto.
  - intros Hrev.
    destruct (revealResults e pid s) as [[s' evs]|f] eqn:E; [|eauto].
    apply revealResults_Ok in E as ((_ & _ & _ & Hno) & _). congruence.
Qed.

Lemma revealResults_guards_witness :
  exists s' s'',
    revealResults (at_time the_admin 151) 1 voting_over = Ok (s', []) /\
    proposals s' = proposals voting_over /\
    revealResults (at_time the_admin 152) 1 s' = Ok (s'', []).
Proof.
  destruct (revealResults (at_time the_admin 151) 1 voting_over)
    as [[s' evs]|] eqn:E; [|vm_compute in E; discriminate].
  destruct (revealResults_guards (at_time the_admin 151) 1 voting_over)
    as [Hok _].
  destruct (Hok s' evs E) as (_ & (_ & _ & Hsame & _) & _ & Hagain).
  destruct (Hagain (at_time the_admin 152)) as [s'' Hsecond].
  - vm_compute. reflexivity.
  - vm_compute. reflexivity.
  - exists s', s''. split; [|split; [exact Hsame | exact Hsecond]].
    apply revealResults_Ok in E as (_ & -> & ->). reflexivity.
Defined.

(** C4, as claimed, fails: the admin calls [revealResults] twice in a row
    for proposal 1, whose [active] flag is still set; both calls are
    accepted, and two decryption requests for proposal 1 are outstanding
    with no callback received. *)
Lemma revealResults_twice_accepted :
  active (proposal_at voting_over 1) = true /\
  exists s' s'',
    revealResults (at_time the_admin 151) 1 voting_over = Ok (s', []) /\
    revealResults (at_time the_admin 152) 1 s' = Ok (s'', []) /\
    List.map (fun r => (FHE.requestID r, FHE.issuedFor r))
      (decryptionRequests s'') = [(0, 1); (1, 1)] /\
    resultsRevealed (proposal_at s'' 1) = false.
Proof.
  split; [vm_compute; reflexivity|].
  eexists _, _. repeat split; vm_compute; reflexivity.
Qed.

(** C5, as the code has it. When a verified callback marks a proposal
    revealed, the decoded [yesVotes] and [noVotes] go into the
    [ResultsRevealed] event and nowhere else: no proposal record changes in
    any field other than [active] and [resultsRevealed], and
    [getProposalInfo], which returns the title, description, start and end
    time, the two flags and [totalVoters], answers the same whatever values
    the callback carried. *)
Theorem revealed_values_only_in_event
    (checkSignatures : list FHE.DecryptionRequest -> Z -> bytes -> bytes -> bool)
    (e : Env) (requestId : Z) (cleartexts decryptionProof : bytes)
    (s s' : Storage) (evs : list Event) :
  processResults checkSignatures e requestId cleartexts decryptionProof s
  = Ok (s', evs) ->
  (exists y n pid,
     abi_decode_uint32_pair cleartexts = Some (y, n) /\
     evs = [ResultsRevealed pid y n; ProposalEnded pid]) /\
  (forall q, same_data (proposal_at s q) (proposal_at s' q)) /\
  (forall q info,
     getProposalInfo q s' = Ok info ->
     info = (title (proposal_at s q), description (proposal_at s q),
             startTime (proposal_at s q), endTime (proposal_at s q),
             active (proposal_at s' q), resultsRevealed (proposal_at s' q),
             totalVoters (proposal_at s q))) /\
  (forall e2 requestId2 cleartexts2 decryptionProof2 s2 evs2 q,
     processResults checkSignatures e2 requestId2 cleartexts2
       decryptionProof2 s = Ok (s2, evs2) ->
     getProposalInfo q s2 = getProposalInfo q s').
Proof.
  intros (_ & y & n & Hdec & -> & ->)%processResults_Ok.
  split; [by exists y, n, (currentProposalId s)|].
  rewrite update_proposal_twice.
  assert (Hsame : forall q,
    same_data (proposal_at s q)
      (proposal_at
         (update_proposal (currentProposalId s)
            (fun p => set_active false (set_resultsRevealed true p)) s) q)).
  { intros q. apply same_data_update_flags. intros p. by repeat split. }
  split; [exact Hsame|]. split.
  - intros q info [_ Hinfo]%proposalExists_Ok.
    injection Hinfo as <-.
    destruct (Hsame q) as (-> & -> & -> & -> & _ & _ & -> & _). done.
  - intros e2 rid2 ct2 pf2 s2 evs2 q
      (_ & y2 & n2 & _ & -> & _)%processResults_Ok.
    by rewrite update_proposal_twice.
Qed.

Lemma revealed_values_only_in_event_witness :
  exists s' evs,
    processResults accept_all (at_time oracle 160) 0
      (abi_encode_uint32_pair 2 1) [] awaiting_reveal = Ok (s', evs) /\
    totalVoters (proposal_at s' 1) = 3 /\
    yesVotes (proposal_at s' 1) = yesVotes (proposal_at awaiting_reveal 1).
Proof.
  destruct (processResults accept_all (at_time oracle 160) 0
              (abi_encode_uint32_pair 2 1) [] awaiting_reveal)
    as [[s' evs]|] eqn:E; [|vm_compute in E; discriminate].
  destruct (revealed_values_only_in_event accept_all _ _ _ _ _ _ _ E)
    as (_ & Hsame & _ & _).
  destruct (Hsame 1) as (_ & _ & _ & _ & Hyes & _ & Htot & _).
  exists s', evs. split; [reflexivity|].
  split; [rewrite Htot; vm_compute; reflexivity | exact Hyes].
Defined.

(** C5, as claimed, fails: two accepted callbacks that carry different
    results, (2, 1) and (0, 3), leave the very same storage, and the proposal
    query on it returns the title, description, times, flags and voter count
    only. *)
Lemma revealed_values_not_stored :
  exists s',
    processResults accept_all (at_time oracle 160) 0
      (abi_encode_uint32_pair 2 1) [] awaiting_reveal
    = Ok (s', [ResultsRevealed 1 2 1; ProposalEnded 1]) /\
    processResults accept_all (at_time oracle 160) 0
      (abi_encode_uint32_pair 0 3) [] awaiting_reveal
    = Ok (s', [ResultsRevealed 1 0 3; ProposalEnded 1]) /\
    resultsRevealed (proposal_at s' 1) = true /\
    getProposalInfo 1 s'
    = Ok ("Plant trees"%string, EmptyString, 100, 150, false, true, 3).
Proof. eexists. repeat split; vm_compute; reflexivity. Qed.

(** C6. After any sequence of transactions and for every proposal,
    [totalVoters] is the number of distinct voter identities whose vote
    record for the proposal has [hasVoted = true]: the identities with such a
    record form a finite set whose size is [totalVoters]; it is also the
    length of the duplicate-free [voters] array. *)
Theorem totalVoters_counts_hasVoted
    (checkSignatures : list FHE.DecryptionRequest -> Z -> bytes -> bytes -> bool)
    (deployer : Env) (txs : list (Env * Call)) (pid : Z) :
  let s := run checkSignatures txs (constructor deployer) in
  let identities : gset Z := dom (voted_records s pid) in
  (forall who, who ∈ identities <-> hasVoted (vote_at s pid who) = true) /\
  Z.of_nat (size identities) = totalVoters (proposal_at s pid) /\
  NoDup (voters (proposal_at s pid)) /\
  Z.of_nat (length (voters (proposal_at s pid)))
  = totalVoters (proposal_at s pid).
Proof.
  intros s identities.
  destruct (storage_inv_reachable checkSignatures deployer txs) as [_ Hinv].
  fold s in Hinv. specialize (Hinv pid).
  destruct Hinv as [_ _ _ Hrec Hcnt [Hnd Hvs] _ _].
  assert (Hall : voted_records s pid = votes_at s pid).
  { apply map_filter_id. intros who v Hv. simpl. eauto. }
  assert (Hdom : forall who, who ∈ identities
                             <-> hasVoted (vote_at s pid who) = true).
  { intros who. unfold identities. rewrite Hall, elem_of_dom. split.
    - intros [v Hv]. rewrite (vote_at_Some _ _ _ _ Hv). eauto.
    - intros Hv. destruct (votes_at s pid !! who) as [v|] eqn:E; [eauto|].
      rewrite (vote_at_None _ _ _ E) in Hv. discriminate. }
  split; [done|].
  assert (Hsize : Z.of_nat (size identities) = totalVoters (proposal_at s pid)).
  { unfold identities. rewrite size_dom, Hall. done. }
  split; [done|]. split; [done|].
  rewrite <- Hsize. f_equal.
  assert (Hset : list_to_set (voters (proposal_at s pid)) = identities).
  { apply set_eq. intros who. rewrite elem_of_list_to_set, Hvs.
    unfold identities. by rewrite Hall, elem_of_dom. }
  rewrite <- Hset. symmetry. by apply size_list_to_set.
Qed.

(** C7. In every reachable storage and for every proposal, the plaintexts
    held by [yesVotes] and [noVotes] add up to [totalVoters]. An accepted
    vote leaves in [yesVotes] the homomorphic sum of the old counter and an
    encryption of the choice, and in [noVotes] the homomorphic sum of the old
    counter and an encryption of the complement; on plaintexts the first
    grows by the choice and the second by its complement, hence exactly one
    across the two, and [totalVoters] grows by one. *)
Theorem tallies_sum_to_totalVoters
    (checkSignatures : list FHE.DecryptionRequest -> Z -> bytes -> bytes -> bool)
    (deployer : Env) (txs : list (Env * Call)) :
  let s := run checkSignatures txs (constructor deployer) in
  (forall pid,
     dec32 (yesVotes (proposal_at s pid)) + dec32 (noVotes (proposal_at s pid))
     = totalVoters (proposal_at s pid)) /\
  (forall e pid v s' evs,
     submitVote e pid v s = Ok (s', evs) ->
     (yesVotes (proposal_at s' pid)
      = FHE.add (yesVotes (proposal_at s pid)) (FHE.asEuint32 v) /\
      noVotes (proposal_at s' pid)
      = FHE.add (noVotes (proposal_at s pid)) (FHE.asEuint32 (1 - v))) /\
     (dec32 (yesVotes (proposal_at s' pid))
      = dec32 (yesVotes (proposal_at s pid)) + v /\
      dec32 (noVotes (proposal_at s' pid))
      = dec32 (noVotes (proposal_at s pid)) + (1 - v) /\
      totalVoters (proposal_at s' pid) = totalVoters (proposal_at s pid) + 1)).
Proof.
  intros s.
  destruct (storage_inv_reachable checkSignatures deployer txs) as [_ Hinv].
  fold s in Hinv. split.
  - intros pid. apply (inv_tally _ _ (Hinv pid)).
  - intros e pid v s' evs
      ((_ & _ & _ & Hv & _ & Hle) & _ & Hp & _)%submitVote_Ok.
    destruct (Hinv pid) as [Ht Hy Hn _ _ _ _ _].
    rewrite Hp. unfold max_uint32 in Hle.
    destruct (yesVotes (proposal_at s pid)) as [y] eqn:Ey.
    destruct (noVotes (proposal_at s pid)) as [n] eqn:En.
    simpl in Ht, Hy, Hn.
    destruct Hv as [-> | ->]; simpl; rewrite ?Ey, ?En; unfold FHE.add; simpl;
      rewrite ?Z.add_0_r, ?Z.mod_small by lia; (split; [done | lia]).
Qed.

Lemma tallies_sum_to_totalVoters_witness :
  let s := run accept_all three_votes deployed in
  dec32 (yesVotes (proposal_at s 1)) + dec32 (noVotes (proposal_at s 1)) = 3 /\
  totalVoters (proposal_at s 1) = 3 /\
  exists s' evs,
    submitVote (at_time dave 140) 1 1 s = Ok (s', evs) /\
    dec32 (yesVotes (proposal_at s' 1)) = 3 /\
    dec32 (noVotes (proposal_at s' 1)) = 1 /\
    totalVoters (proposal_at s' 1) = 4.
Proof.
  intros s.
  destruct (tallies_sum_to_totalVoters accept_all (at_time the_admin 0)
              three_votes) as [Hsum Hvote].
  fold deployed in Hsum, Hvote. fold s in Hsum, Hvote.
  split; [rewrite (Hsum 1); vm_compute; reflexivity|].
  split; [vm_compute; reflexivity|].
  destruct (submitVote (at_time dave 140) 1 1 s) as [[s' evs]|] eqn:E;
    [|vm_compute in E; discriminate].
  exists s', evs. split; [reflexivity|].
  destruct (Hvote _ _ _ _ _ E) as (_ & Hy & Hn & Ht).
  rewrite Hy, Hn, Ht. vm_compute. auto.
Defined.

(** C8, as the code has it. A vote from an identity that already has
    [hasVoted = true] for the proposal is always rejected, and the
    transaction leaves the whole storage (voter count, both tallies, every
    vote record) as it was. The reason is [AlreadyVoted] whenever the earlier
    guards pass, that is when the proposal exists, is active, the time is
    within its voting window and the value is 0 or 1; otherwise the call is
    rejected by the first of those guards that fails. *)
Theorem second_vote_rejected
    (checkSignatures : list FHE.DecryptionRequest -> Z -> bytes -> bytes -> bool)
    (e : Env) (pid v : Z) (s : Storage) :
  hasVoted (vote_at s pid (msg_sender e)) = true ->
  (exists f, submitVote e pid v s = Fail f) /\
  step checkSignatures s (e, SubmitVote pid v) = s /\
  (exists_in s pid ->
   active (proposal_at s pid) = true ->
   startTime (proposal_at s pid) <= block_timestamp e
     <= endTime (proposal_at s pid) ->
   v = 0 \/ v = 1 ->
   submitVote e pid v s = Fail AlreadyVoted) /\
  (~ exists_in s pid -> submitVote e pid v s = Fail ProposalNotFound) /\
  (exists_in s pid ->
   active (proposal_at s pid) = false ->
   submitVote e pid v s = Fail ProposalNotActive) /\
  (exists_in s pid ->
   active (proposal_at s pid) = true ->
   block_timestamp e < startTime (proposal_at s pid) ->
   submitVote e pid v s = Fail (Revert "Voting has not started")) /\
  (exists_in s pid ->
   active (proposal_at s pid) = true ->
   startTime (proposal_at s pid) <= block_timestamp e ->
   endTime (proposal_at s pid) < block_timestamp e ->
   submitVote e pid v s = Fail (Revert "Voting has ended")) /\
  (exists_in s pid ->
   active (proposal_at s pid) = true ->
   startTime (proposal_at s pid) <= block_timestamp e
     <= endTime (proposal_at s pid) ->
   v <> 0 -> v <> 1 ->
   submitVote e pid v s = Fail (Revert "Vote must be 0 (no) or 1 (yes)")).
Proof.
  intros Hvoted.
  assert (Hfail : exists f, submitVote e pid v s = Fail f).
  { destruct (submitVote e pid v s) as [[s' evs]|f] eqn:E; [|eauto].
    apply submitVote_Ok in E as ((_ & _ & _ & _ & Hnv & _) & _).
    congruence. }
  split; [done|]. split.
  { unfold step. simpl. by destruct Hfail as [f ->]. }
  unfold submitVote, proposalExists, proposalActive, require_, exists_in.
  repeat split.
  - intros [Hlo Hhi] Hact [Hst Hen] Hv.
    apply Z.ltb_lt in Hlo. apply Z.leb_le in Hhi, Hst, Hen.
    rewrite Hlo, Hhi, Hact, Hst, Hen, Hvoted. simpl.
    by destruct Hv as [-> | ->].
  - intros Hn.
    destruct ((0 <? pid) && (pid <=? currentProposalId s)) eqn:E; [|done].
    apply andb_true_iff in E as [?%Z.ltb_lt ?%Z.leb_le]. lia.
  - intros [Hlo Hhi] Hact.
    apply Z.ltb_lt in Hlo. apply Z.leb_le in Hhi.
    by rewrite Hlo, Hhi, Hact.
  - intros [Hlo Hhi] Hact Hst.
    apply Z.ltb_lt in Hlo. apply Z.leb_le in Hhi. apply Z.leb_gt in Hst.
    by rewrite Hlo, Hhi, Hact, Hst.
  - intros [Hlo Hhi] Hact Hst Hen.
    apply Z.ltb_lt in Hlo. apply Z.leb_le in Hhi, Hst. apply Z.leb_gt in Hen.
    by rewrite Hlo, Hhi, Hact, Hst, Hen.
  - intros [Hlo Hhi] Hact [Hst Hen] H0 H1.
    apply Z.ltb_lt in Hlo. apply Z.leb_le in Hhi, Hst, Hen.
    apply Z.eqb_neq in H0, H1.
    by rewrite Hlo, Hhi, Hact, Hst, Hen, H0, H1.
Qed.

Lemma second_vote_rejected_witness :
  let s := run accept_all three_votes deployed in
  hasVoted (vote_at s 1 alice) = true /\
  submitVote (at_time alice 140) 1 0 s = Fail AlreadyVoted /\
  step accept_all s (at_time alice 140, SubmitVote 1 0) = s.
Proof.
  intros s.
  assert (Hv : hasVoted (vote_at s 1 (msg_sender (at_time alice 140))) = true)
    by (vm_compute; reflexivity).
  destruct (second_vote_rejected accept_all (at_time alice 140) 1 0 s Hv)
    as (_ & Hstep & Hreason & _).
  split; [exact Hv|]. split; [|exact Hstep].
  apply Hreason.
  - vm_compute. split; [reflexivity | discriminate].
  - vm_compute. reflexivity.
  - vm_compute. split; discriminate.
  - left. reflexivity.
Defined.

(** C8, as claimed, fails: alice votes, the admin ends the proposal, alice
    votes again. The second vote is rejected, but by the [proposalActive]
    modifier, which runs before the double-vote check. *)
Lemma second_vote_other_reason :
  let s := run accept_all
             (three_votes ++ [(at_time the_admin 135, EndProposal 1)])
             deployed in
  hasVoted (vote_at s 1 alice) = true /\
  submitVote (at_time alice 140) 1 1 s = Fail ProposalNotActive /\
  ProposalNotActive <> AlreadyVoted.
Proof.
  intros s. split; [vm_compute; reflexivity|].
  split; [vm_compute; reflexivity|]. discriminate.
Qed.

(** C9. [Active] is the proposal's [active] flag, the one [endProposal]
    tests and clears; the voting window is not consulted. In every reachable
    storage: [endProposal] succeeds only for the admin and only on a proposal
    whose flag is set, and it clears the flag; a call by a non-admin on an
    active proposal (or on any existing one) is rejected with [Unauthorized]
    and the transaction leaves the proposal as it was, still active; a call
    on a proposal that is not active fails. *)
Theorem endProposal_admin_and_active
    (checkSignatures : list FHE.DecryptionRequest -> Z -> bytes -> bytes -> bool)
    (deployer : Env) (txs : list (Env * Call)) (e : Env) (pid : Z) :
  let s := run checkSignatures txs (constructor deployer) in
  (forall s' evs,
     endProposal e pid s = Ok (s', evs) ->
     msg_sender e = admin s /\ active (proposal_at s pid) = true /\
     active (proposal_at s' pid) = false) /\
  (msg_sender e <> admin s ->
   active (proposal_at s pid) = true \/ exists_in s pid ->
   endProposal e pid s = Fail Unauthorized /\
   step checkSignatures s (e, EndProposal pid) = s) /\
  (active (proposal_at s pid) = false ->
   exists f, endProposal e pid s = Fail f).
Proof.
  intros s.
  destruct (storage_inv_reachable checkSignatures deployer txs) as [_ Hinv].
  fold s in Hinv.
  split; [|split].
  - intros s' evs ((_ & Hadm & Hact) & -> & _)%endProposal_Ok.
    by rewrite proposal_at_update_eq.
  - intros Hna Hact.
    assert (Hex : exists_in s pid).
    { destruct Hact as [Hact | Hex]; [|done].
      destruct (decide (exists_in s pid)) as [|Hn]; [done|].
      destruct (inv_fresh _ _ (Hinv pid) Hn) as [_ Hoff]. congruence. }
    assert (Hrev : endProposal e pid s = Fail Unauthorized).
    { destruct Hex as [Hlo Hhi].
      apply Z.ltb_lt in Hlo. apply Z.leb_le in Hhi. apply Z.eqb_neq in Hna.
      unfold endProposal, proposalExists, onlyAdmin, require_.
      by rewrite Hlo, Hhi, Hna. }
    split; [done|]. unfold step. simpl. by rewrite Hrev.
  - intros Hoff.
    destruct (endProposal e pid s) as [[s' evs]|f] eqn:E; [|eauto].
    apply endProposal_Ok in E as ((_ & _ & Hact) & _). congruence.
Qed.

Lemma endProposal_admin_and_active_witness :
  let s := run accept_all three_votes deployed in
  active (proposal_at s 1) = true /\
  endProposal (at_time alice 140) 1 s = Fail Unauthorized /\
  step accept_all s (at_time alice 140, EndProposal 1) = s.
Proof.
  intros s.
  assert (Hact : active (proposal_at s 1) = true) by (vm_compute; reflexivity).
  destruct (endProposal_admin_and_active accept_all (at_time the_admin 0)
              three_votes (at_time alice 140) 1) as (_ & Hna & _).
  split; [exact Hact|].
  apply Hna.
  - vm_compute. discriminate.
  - left. exact Hact.
Defined.

(** C10. [processResults] looks at nothing but the verdict of
    [FHE.checkSignatures] and the decoding of the cleartexts: its outcome is
    the same for every caller and every block time, it succeeds exactly when
    the signatures verify and the cleartexts decode, and every successful
    call sets [resultsRevealed = true] and [active = false] on the proposal
    whose id is [currentProposalId], whatever that proposal's flags and
    voting window are, and touches no other proposal. *)
Theorem processResults_marks_latest
    (checkSignatures : list FHE.DecryptionRequest -> Z -> bytes -> bytes -> bool)
    (e : Env) (requestId : Z) (cleartexts decryptionProof : bytes)
    (s : Storage) :
  (forall e',
     processResults checkSignatures e' requestId cleartexts decryptionProof s
     = processResults checkSignatures e requestId cleartexts decryptionProof s)
  /\
  ((exists r,
      processResults checkSignatures e requestId cleartexts decryptionProof s
      = Ok r)
   <-> checkSignatures (decryptionRequests s) requestId cleartexts
         decryptionProof = true
       /\ is_Some (abi_decode_uint32_pair cleartexts))
  /\
  (forall s' evs,
     processResults checkSignatures e requestId cleartexts decryptionProof s
     = Ok (s', evs) ->
     resultsRevealed (proposal_at s' (currentProposalId s)) = true /\
     active (proposal_at s' (currentProposalId s)) = false /\
     currentProposalId s' = currentProposalId s /\
     forall q, q <> currentProposalId s -> proposal_at s' q = proposal_at s q).
Proof.
  split; [done|]. split.
  - split.
    + intros [[s' evs] (Hchk & y & n & Hdec & _)%processResults_Ok].
      split; [done|]. by rewrite Hdec.
    + intros [Hchk [[y n] Hdec]].
      erewrite processResults_accepts by eauto. eauto.
  - intros s' evs (_ & y & n & _ & -> & _)%processResults_Ok.
    rewrite update_proposal_twice, proposal_at_update_eq.
    repeat split; try done.
    intros q Hq. by rewrite proposal_at_update_ne.
Qed.

(** A stranger calls back while proposal 1 is active and inside its voting
    window. *)
Lemma processResults_marks_latest_witness :
  let s := run accept_all three_votes deployed in
  active (proposal_at s 1) = true /\
  block_timestamp (at_time dave 140) <= endTime (proposal_at s 1) /\
  exists s' evs,
    processResults accept_all (at_time dave 140) 0
      (abi_encode_uint32_pair 2 1) [] s = Ok (s', evs) /\
    resultsRevealed (proposal_at s' 1) = true /\
    active (proposal_at s' 1) = false.
Proof.
  intros s.
  split; [vm_compute; reflexivity|].
  split; [vm_compute; discriminate|].
  destruct (processResults_marks_latest accept_all (at_time dave 140) 0
              (abi_encode_uint32_pair 2 1) [] s) as (_ & Hiff & Hmark).
  destruct (proj2 Hiff) as [[s' evs] Hok].
  { split; [reflexivity|]. vm_compute. eauto. }
  exists s', evs. split; [exact Hok|].
  destruct (Hmark s' evs Hok) as (Hrev & Hact & _).
  split; [exact Hrev | exact Hact].
Defined.

(** * Lemmas for the further properties *)

(** ** The loops of [getActiveProposals] *)

Lemma getActiveProposals_loops e s :
  getActiveProposals e s =
  bind (for_loop (Z.to_nat (currentProposalId s)) 1 (scan_body e s)
          (replicate (Z.to_nat (currentProposalId s)) 0, 0))
    (fun found =>
       for_loop (Z.to_nat (snd found)) 0 (copy_body (fst found))
         (replicate (Z.to_nat (snd found)) 0)).
Proof.
  unfold getActiveProposals, bind.
  fold (scan_body e s).
  destruct (for_loop _ 1 _ _) as [[arr count]|]; done.
Qed.

Lemma length_zrange i k : length (zrange i k) = k.
Proof. revert i. induction k as [|k IH]; intros i; simpl; [done|]. by rewrite IH. Qed.

Lemma elem_of_zrange x i k : x ∈ zrange i k <-> i <= x < i + Z.of_nat k.
Proof.
  revert i. induction k as [|k IH]; intros i; simpl.
  - rewrite elem_of_nil. lia.
  - rewrite elem_of_cons, IH. lia.
Qed.

Lemma zrange_sorted i k : StronglySorted Z.lt (zrange i k).
Proof.
  revert i. induction k as [|k IH]; intros i; simpl; constructor; [apply IH|].
  apply Forall_forall. intros x Hx%elem_of_zrange. lia.
Qed.

Lemma array_set_next found pad v :
  array_set (found ++ replicate (S pad) 0) (Z.of_nat (length found)) v
  = Ok ((found ++ [v]) ++ replicate pad 0).
Proof.
  unfold array_set. rewrite length_app, length_replicate.
  destruct (Z.leb_spec 0 (Z.of_nat (length found))); [|lia].
  destruct (Z.ltb_spec (Z.of_nat (length found))
              (Z.of_nat (length found + S pad))); [|lia].
  simpl. rewrite Nat2Z.id.
  rewrite <- (Nat.add_0_r (length found)) at 1.
  rewrite insert_app_r. simpl. by rewrite <- app_assoc.
Qed.

Lemma scan_loop e s k : forall i found pad,
  Z.of_nat (length found) < i ->
  i + Z.of_nat k <= max_uint32 ->
  (k <= pad)%nat ->
  for_loop k i (scan_body e s)
    (found ++ replicate pad 0, Z.of_nat (length found))
  = let hits := filter (fun j => voting_open e s j = true) (zrange i k) in
    Ok ((found ++ hits) ++ replicate (pad - length hits) 0,
        Z.of_nat (length (found ++ hits))).
Proof.
  induction k as [|k IH]; intros i found pad Hlen Hmax Hpad;
    cbn [for_loop zrange].
  - rewrite filter_nil, app_nil_r. cbn [length]. by rewrite Nat.sub_0_r.
  - destruct pad as [|pad]; [lia|].
    rewrite filter_cons. unfold scan_body at 1.
    assert (Hinc : checked_add max_uint32 i 1 = Ok (i + 1)).
    { unfold checked_add. destruct (Z.leb_spec (i + 1) max_uint32); [done|lia]. }
    destruct (decide (voting_open e s i = true)) as [Hopen|Hopen].
    + rewrite Hopen.
      rewrite array_set_next. cbn [bind].
      assert (Hcnt : checked_add max_uint32 (Z.of_nat (length found)) 1
                     = Ok (Z.of_nat (length (found ++ [i])))).
      { unfold checked_add. rewrite length_app. cbn [length].
        destruct (Z.leb_spec (Z.of_nat (length found) + 1) max_uint32);
          [f_equal; lia | lia]. }
      rewrite Hcnt, Hinc. cbn [bind].
      rewrite IH; [|rewrite length_app; cbn [length]; lia|lia|lia].
      cbv zeta. cbn [length]. by rewrite <- !app_assoc.
    + apply not_true_is_false in Hopen. rewrite Hopen.
      cbn [bind]. rewrite Hinc. cbn [bind].
      rewrite IH; [done|lia|lia|lia].
Qed.

Lemma copy_loop arr c m : forall j,
  (j + m = c)%nat -> (c <= length arr)%nat -> Z.of_nat c <= max_uint32 ->
  for_loop m (Z.of_nat j) (copy_body arr) (take j arr ++ replicate m 0)
  = Ok (take c arr).
Proof.
  induction m as [|m IH]; intros j Hj Hc Hmax; cbn [for_loop].
  - cbn [replicate]. rewrite app_nil_r. f_equal. f_equal. lia.
  - unfold copy_body at 1, array_get.
    destruct (Z.leb_spec 0 (Z.of_nat j)); [|lia].
    destruct (Z.ltb_spec (Z.of_nat j) (Z.of_nat (length arr))); [|lia].
    cbn [andb bind]. rewrite Nat2Z.id.
    destruct (arr !! j) as [x|] eqn:Hx;
      [|apply lookup_ge_None in Hx; lia].
    cbn [default from_option]. unfold id.
    assert (Hset : array_set (take j arr ++ replicate (S m) 0) (Z.of_nat j) x
                   = Ok (take (S j) arr ++ replicate m 0)).
    { replace (Z.of_nat j) with (Z.of_nat (length (take j arr)))
        by (rewrite length_take; lia).
      rewrite array_set_next. by rewrite (take_S_r _ _ _ Hx). }
    rewrite Hset. cbn [bind]. unfold checked_add at 1.
    destruct (Z.leb_spec (Z.of_nat j + 1) max_uint32); [|lia]. cbn [bind].
    replace (Z.of_nat j + 1) with (Z.of_nat (S j)) by lia.
    apply IH; lia.
Qed.

Lemma for_loop_app {A : Type} (body : Z -> A -> result A) k m : forall i a,
  for_loop (k + m) i body a
  = bind (for_loop k i body a)
      (fun a' => for_loop m (i + Z.of_nat k) body a').
Proof.
  induction k as [|k IH]; intros i a; cbn [for_loop Nat.add bind].
  - by replace (i + Z.of_nat 0) with i by lia.
  - destruct (body i a) as [a'|]; cbn [bind]; [|done].
    destruct (checked_add max_uint32 i 1) as [i'|] eqn:Hi; cbn [bind]; [|done].
    apply checked_add_Ok in Hi as [-> _].
    rewrite IH.
    by replace (i + Z.of_nat (S k)) with (i + 1 + Z.of_nat k) by lia.
Qed.

Lemma filter_sorted (P : Z -> Prop) `{!forall x, Decision (P x)} l :
  StronglySorted Z.lt l -> StronglySorted Z.lt (filter P l).
Proof.
  induction 1 as [|x l Hl IH Hall]; [constructor|].
  rewrite filter_cons. case_decide; [|done].
  constructor; [done|].
  apply Forall_forall. intros y [_ Hy]%list_elem_of_filter.
  by apply (proj1 (Forall_forall _ _) Hall).
Qed.

Lemma elem_of_proposal_ids s i : i ∈ proposal_ids s <-> exists_in s i.
Proof. unfold proposal_ids, exists_in. rewrite elem_of_zrange. lia. Qed.

Lemma isVotingActive_true e i s :
  isVotingActive e i s = Ok true <-> exists_in s i /\ voting_open e s i = true.
Proof.
  unfold isVotingActive, proposalExists, require_, exists_in, voting_open.
  destruct (Z.ltb_spec 0 i); destruct (Z.leb_spec i (currentProposalId s));
    cbn [andb]; split; try (intros [= ->]; split; [lia|done]);
    try discriminate; try (intros [? ?]; lia).
  intros [_ ->]. done.
Qed.

Lemma getActiveProposals_returns e s :
  currentProposalId s < max_uint32 ->
  getActiveProposals e s
  = Ok (filter (fun i => voting_open e s i = true) (proposal_ids s)).
Proof.
  intros Hmax.
  set (open := filter (fun i => voting_open e s i = true) (proposal_ids s)).
  assert (Hpos : 0 < max_uint32) by done.
  rewrite getActiveProposals_loops.
  pose proof (scan_loop e s (Z.to_nat (currentProposalId s)) 1 []
                (Z.to_nat (currentProposalId s))) as Hscan.
  change (Z.of_nat (length (@nil Z))) with 0 in Hscan.
  cbn [app length] in Hscan. rewrite Hscan by lia. clear Hscan.
  cbv zeta. fold (proposal_ids s). fold open. cbn [bind fst snd].
  rewrite Nat2Z.id.
  pose proof (length_filter (fun i => voting_open e s i = true)
                (proposal_ids s)) as Hlen.
  fold open in Hlen. unfold proposal_ids in Hlen.
  rewrite length_zrange in Hlen.
  set (arr := open ++ replicate (Z.to_nat (currentProposalId s) - length open) 0).
  pose proof (copy_loop arr (length open) (length open) 0) as Hcopy.
  change (Z.of_nat 0) with 0 in Hcopy.
  change (take 0 arr) with (@nil Z) in Hcopy.
  cbn [app] in Hcopy. rewrite Hcopy.
  - unfold arr. by rewrite take_app_length.
  - lia.
  - unfold arr. rewrite length_app. lia.
  - lia.
Qed.

(** ** Proposals across later transactions *)

Lemma keeps_same s s' pid :
  pid <= currentProposalId s' ->
  proposal_at s' pid = proposal_at s pid ->
  votes_at s' pid = votes_at s pid ->
  keeps s s' pid.
Proof.
  intros Hid Hp Hv. split; rewrite ?Hp; try done.
  - lia.
  - intros who _. unfold vote_at. by rewrite Hv.
Qed.

Lemma keeps_trans s1 s2 s3 pid :
  keeps s1 s2 pid -> keeps s2 s3 pid -> keeps s1 s3 pid.
Proof.
  intros [_ (Ht1 & Hd1 & Hs1 & He1) Hv1 Hn1 Hr1 Hx1 Hc1]
         [Hid (Ht2 & Hd2 & Hs2 & He2) Hv2 Hn2 Hr2 Hx2 Hc2].
  split.
  - done.
  - repeat split; congruence.
  - by etrans.
  - lia.
  - intros who Hw. rewrite Hr2; [by apply Hr1|].
    rewrite Hr1 by done. done.
  - auto.
  - intros Hoff. destruct (Hc1 Hoff) as (Ha & Hy & Hno & Htot & Hvs & Hm).
    destruct (Hc2 Ha) as (Ha' & Hy' & Hno' & Htot' & Hvs' & Hm').
    repeat split; congruence.
Qed.

Lemma keeps_update_flags s q (f : Proposal -> Proposal) pid :
  pid <= currentProposalId s ->
  (forall p, same_data p (f p)) ->
  (forall p, resultsRevealed p = true -> resultsRevealed (f p) = true) ->
  (forall p, active p = false -> active (f p) = false) ->
  keeps s (update_proposal q f s) pid.
Proof.
  intros Hid Hdata Hrev Hoff.
  destruct (decide (q = pid)) as [->|Hne].
  - destruct (Hdata (proposal_at s pid)) as (Ht & Hd & Hs & He & Hy & Hn & Htot & Hvs).
    split; rewrite ?proposal_at_update_eq; try done.
    + by rewrite Hvs.
    + rewrite Htot, Hvs. lia.
    + auto.
    + intros Ha. repeat split; auto.
  - apply keeps_same; [done | by apply proposal_at_update_ne | done].
Qed.

Lemma keeps_submitVote e q v s s' evs pid :
  submitVote e q v s = Ok (s', evs) ->
  pid <= currentProposalId s -> keeps s s' pid.
Proof.
  intros ((_ & Hact & _ & _ & Hnv & _) & (_ & Hid & _) & Hp & Hm & Hfr & _)
         %submitVote_Ok Hle.
  destruct (decide (pid = q)) as [->|Hne].
  - split; rewrite ?Hp; try done.
    + lia.
    + simpl. by apply prefix_app_r.
    + simpl. rewrite length_app. simpl. lia.
    + intros who Hw. unfold vote_at. rewrite Hm.
      destruct (decide (msg_sender e = who)) as [<-|Hwho]; [congruence|].
      by rewrite lookup_insert_ne.
    + congruence.
  - destruct (Hfr pid Hne) as [Hpq Hvq].
    apply keeps_same; [lia | done | done].
Qed.

Section Keeping.

Variable checkSignatures :
  list FHE.DecryptionRequest -> Z -> bytes -> bytes -> bool.

Lemma keeps_step s tx pid :
  pid <= currentProposalId s -> keeps s (step checkSignatures s tx) pid.
Proof.
  intros Hle. unfold step.
  destruct (exec _ _ _ s) as [[s' evs]|] eqn:E;
    [|by apply keeps_same].
  destruct tx as [e [t d dur | q v | q | rid ct pf | q | a]]; simpl in E.
  - apply createProposal_Ok in E
      as (_ & (_ & Hid & Hvotes & _) & _ & Hold & _).
    apply keeps_same; [lia | apply Hold; lia |].
    unfold votes_at. by rewrite Hvotes.
  - by eapply keeps_submitVote.
  - apply revealResults_Ok in E as (_ & -> & _). by apply keeps_same.
  - apply processResults_Ok in E as (_ & y & n & _ & -> & _).
    rewrite update_proposal_twice.
    apply keeps_update_flags; [done | | done | done].
    intros p. by repeat split.
  - apply endProposal_Ok in E as (_ & -> & _).
    apply keeps_update_flags; [done | | done | done].
    intros p. by repeat split.
  - apply transferAdmin_Ok in E as (_ & -> & _). by apply keeps_same.
Qed.

Lemma keeps_run txs : forall s pid,
  pid <= currentProposalId s -> keeps s (run checkSignatures txs s) pid.
Proof.
  induction txs as [|tx txs IH]; intros s pid Hle; simpl.
  - by apply keeps_same.
  - pose proof (keeps_step s tx pid Hle) as Hstep.
    eapply keeps_trans; [exact Hstep|].
    apply IH. apply (keeps_id _ _ _ Hstep).
Qed.

End Keeping.

(** ** Well-formedness of the reachable storage *)

Lemma size_filter_insert_fresh (P : Z * Vote -> Prop)
    `{!forall x, Decision (P x)} (m : gmap Z Vote) k x :
  m !! k = None ->
  size (filter P (<[k := x]> m))
  = if decide (P (k, x)) then S (size (filter P m)) else size (filter P m).
Proof.
  intros Hk. case_decide as HP.
  - rewrite map_filter_insert_True by done.
    apply map_size_insert_None. by apply map_lookup_filter_None_2; left.
  - rewrite map_filter_insert_False by done. by rewrite delete_id.
Qed.

Lemma wf_storage_constructor e : wf_storage (constructor e).
Proof.
  split.
  - done.
  - intros pid [Hlo Hhi]. simpl in Hhi. lia.
  - intros pid who v. rewrite votes_at_constructor, lookup_empty. done.
  - intros pid. unfold records_with.
    rewrite votes_at_constructor, proposal_at_constructor, !map_filter_empty.
    done.
  - intros pid _. by rewrite votes_at_constructor, proposal_at_constructor.
Qed.

Lemma wf_storage_transfer s s' :
  currentProposalId s' = currentProposalId s ->
  (forall q, same_data (proposal_at s q) (proposal_at s' q)) ->
  votes s' = votes s ->
  (forall q, currentProposalId s < q -> proposal_at s' q = proposal_at s q) ->
  wf_storage s -> wf_storage s'.
Proof.
  intros Hid Hdata Hvotes Hnone [Hc Hw Hv Ht Hf].
  assert (Hva : forall q, votes_at s' q = votes_at s q)
    by (intros q; unfold votes_at; by rewrite Hvotes).
  split.
  - by rewrite Hid.
  - intros pid Hex.
    destruct (Hdata pid) as (-> & _ & -> & -> & _).
    apply Hw. unfold exists_in in *. by rewrite <- Hid.
  - intros pid who v. rewrite Hva. intros Hl.
    destruct (Hdata pid) as (_ & _ & -> & -> & _).
    destruct (Hv pid who v Hl) as (Hex & Hrest).
    split; [|done]. unfold exists_in in *. by rewrite Hid.
  - intros pid. unfold records_with. rewrite Hva.
    destruct (Hdata pid) as (_ & _ & _ & _ & -> & -> & _). apply Ht.
  - intros pid Hgt. rewrite Hid in Hgt. destruct (Hf pid Hgt) as [Hp Hvn].
    split; [by rewrite Hnone | by rewrite Hva].
Qed.

Lemma wf_storage_update_flags q f s :
  q <= currentProposalId s ->
  (forall p, same_data p (f p)) ->
  wf_storage s -> wf_storage (update_proposal q f s).
Proof.
  intros Hq Hf. apply wf_storage_transfer; try done.
  - intros p. by apply same_data_update_flags.
  - intros p Hgt. apply proposal_at_update_ne. lia.
Qed.

Lemma wf_storage_createProposal e t d dur s s' evs :
  createProposal e t d dur s = Ok (s', evs) ->
  wf_storage s -> wf_storage s'.
Proof.
  intros ((_ & Ht & Hdur & Hmax & Hend) & (_ & Hid & Hvotes & _) & Hnew & Hold & _)
         %createProposal_Ok [Hc Hw Hv Htal Hf].
  assert (Hva : forall q, votes_at s' q = votes_at s q)
    by (intros q; unfold votes_at; by rewrite Hvotes).
  assert (Hempty : votes_at s (currentProposalId s + 1) = ∅).
  { destruct (Hf (currentProposalId s + 1)) as [_ ->]; [lia|done]. }
  split.
  - lia.
  - intros pid [Hlo Hhi].
    destruct (decide (pid = currentProposalId s + 1)) as [->|Hne].
    + rewrite Hnew. simpl. repeat split; [lia | lia | done].
    + rewrite Hold by done. apply Hw. unfold exists_in. lia.
  - intros pid who v. rewrite Hva. intros Hl.
    destruct (Hv pid who v Hl) as ([Hlo Hhi] & Hrest).
    rewrite Hold by lia. split; [unfold exists_in; lia | done].
  - intros pid. unfold records_with. rewrite Hva.
    destruct (decide (pid = currentProposalId s + 1)) as [->|Hne].
    + rewrite Hnew, Hempty, !map_filter_empty. done.
    + rewrite Hold by done. apply Htal.
  - intros pid Hgt. rewrite Hid in Hgt.
    destruct (Hf pid) as [Hp Hvn]; [lia|].
    rewrite Hold by lia. by rewrite Hva.
Qed.

Lemma wf_storage_submitVote e pid v s s' evs :
  submitVote e pid v s = Ok (s', evs) ->
  storage_inv s -> wf_storage s -> wf_storage s'.
Proof.
  intros ((Hex & Hact & Hwin & Hv & Hnv & Hle) & (_ & Hid & _) & Hp & Hm & Hfr & _)
         %submitVote_Ok [_ Hinv] [Hc Hw Hvs Htal Hf].
  pose proof (not_voted_no_record _ _ _ (Hinv pid) Hnv) as Hnone.
  destruct (Hinv pid) as [Hsum Hy Hn _ _ _ _ _].
  unfold max_uint32 in Hle.
  split.
  - by rewrite Hid.
  - intros q Hq.
    assert (Hq' : exists_in s q) by (unfold exists_in in *; lia).
    destruct (decide (q = pid)) as [->|Hne].
    + rewrite Hp. simpl. by apply Hw.
    + destruct (Hfr q Hne) as [-> _]. by apply Hw.
  - intros q who w.
    destruct (decide (q = pid)) as [->|Hne].
    + rewrite Hm, Hp, lookup_insert. simpl. case_decide as Hwho.
      * intros [= <-]. simpl.
        split; [unfold exists_in in *; lia|]. split; [lia|].
        unfold FHE.asEuint8. simpl. done.
      * intros Hl. destruct (Hvs pid who w Hl) as (_ & Hrest).
        split; [unfold exists_in in *; lia | done].
    + destruct (Hfr q Hne) as [-> ->]. intros Hl.
      destruct (Hvs q who w Hl) as (Hq & Hrest).
      split; [unfold exists_in in *; lia | done].
  - intros q. unfold records_with.
    destruct (decide (q = pid)) as [->|Hne].
    + rewrite Hm, Hp, !size_filter_insert_fresh by done.
      destruct (Htal pid) as [Hty Htn]. unfold records_with in Hty, Htn.
      simpl. destruct Hv as [-> | ->]; simpl;
        rewrite ?decide_True, ?decide_False by done;
        rewrite ?Z.mod_small by lia; lia.
    + destruct (Hfr q Hne) as [-> ->]. apply Htal.
  - intros q Hq. rewrite Hid in Hq.
    assert (Hne : q <> pid) by (unfold exists_in in Hex; lia).
    destruct (Hfr q Hne) as [-> ->]. by apply Hf.
Qed.

Section WellFormedRuns.

Variable checkSignatures :
  list FHE.DecryptionRequest -> Z -> bytes -> bytes -> bool.

Lemma wf_storage_exec e c s s' evs :
  exec checkSignatures e c s = Ok (s', evs) ->
  storage_inv s -> wf_storage s -> wf_storage s'.
Proof.
  destruct c as [t d dur | pid v | pid | rid ct pf | pid | a]; simpl;
    intros E Hinv Hwf.
  - by eapply wf_storage_createProposal.
  - by eapply wf_storage_submitVote.
  - apply revealResults_Ok in E as (_ & -> & _).
    revert Hwf. apply wf_storage_transfer; try done.
    all: intros q; by repeat split.
  - apply processResults_Ok in E as (_ & y & n & _ & -> & _).
    rewrite update_proposal_twice.
    apply wf_storage_update_flags; [lia | | done].
    intros p. by repeat split.
  - apply endProposal_Ok in E as (([_ Hhi] & _) & -> & _).
    apply wf_storage_update_flags; [done | | done].
    intros p. by repeat split.
  - apply transferAdmin_Ok in E as (_ & -> & _).
    revert Hwf. apply wf_storage_transfer; try done.
    all: intros q; by repeat split.
Qed.

Lemma wf_storage_run txs : forall s,
  storage_inv s -> wf_storage s ->
  wf_storage (run checkSignatures txs s).
Proof.
  induction txs as [|tx txs IH]; intros s Hinv Hwf; simpl; [done|].
  apply IH; [by apply storage_inv_step|].
  unfold step. destruct (exec _ _ _ s) as [[s' evs]|] eqn:E; [|done].
  by eapply wf_storage_exec.
Qed.

Lemma wf_storage_reachable deployer txs :
  wf_storage (run checkSignatures txs (constructor deployer)).
Proof.
  apply wf_storage_run;
    [apply storage_inv_constructor | apply wf_storage_constructor].
Qed.

End WellFormedRuns.

(** ** No decryption request is saved before the first proposal *)

Lemma before_first_constructor e : before_first (constructor e).
Proof. split; [done | done | by rewrite proposal_at_constructor]. Qed.

Section BeforeFirst.

Variable checkSignatures :
  list FHE.DecryptionRequest -> Z -> bytes -> bytes -> bool.

Hypothesis rejects_unrequested :
  forall requestId cleartexts decryptionProof,
    checkSignatures [] requestId cleartexts decryptionProof = false.

Lemma before_first_exec e c s s' evs :
  exec checkSignatures e c s = Ok (s', evs) ->
  before_first s -> before_first s'.
Proof.
  intros E [Hc Hr Hz].
  destruct c as [t d dur | pid v | pid | rid ct pf | pid | a]; simpl in E.
  - apply createProposal_Ok in E as (_ & (_ & Hid & _) & _ & Hold & _).
    split; [lia | lia | by rewrite Hold by lia].
  - apply submitVote_Ok in E
      as (([Hlo Hhi] & _) & (_ & Hid & Hreq) & _ & _ & Hfr & _).
    split; [lia | lia |]. by destruct (Hfr 0 ltac:(lia)) as [-> _].
  - apply revealResults_Ok in E as (([Hlo Hhi] & _) & -> & _).
    split; [done | simpl; lia | done].
  - apply processResults_Ok in E as (Hchk & y & n & _ & -> & _).
    destruct (decide (currentProposalId s = 0)) as [Hzero|Hpos].
    + rewrite (Hr Hzero), rejects_unrequested in Hchk. discriminate.
    + split; [done | done |].
      rewrite !proposal_at_update_ne by done. done.
  - apply endProposal_Ok in E as (([Hlo Hhi] & _) & -> & _).
    split; [done | simpl; lia |].
    by rewrite proposal_at_update_ne by lia.
  - apply transferAdmin_Ok in E as (_ & -> & _). by split.
Qed.

Lemma before_first_run txs : forall s,
  before_first s -> before_first (run checkSignatures txs s).
Proof.
  induction txs as [|tx txs IH]; intros s Hs; simpl; [done|].
  apply IH. unfold step.
  destruct (exec _ _ _ s) as [[s' evs]|] eqn:E; [|done].
  by eapply before_first_exec.
Qed.

End BeforeFirst.

(** * Further properties of the contract *)

(** X1. [createProposal] gives the new proposal the next id, starting at
    the block time with both tallies at an encryption of zero, and leaves
    every other proposal, every vote and the admin alone. It is rejected, in
    this order, for a caller other than the admin, an empty title, a
    duration that is not positive, and an id or end time that overflows. *)
Theorem createProposal_outcome (e : Env) (t d : string) (dur : Z) (s : Storage) :
  (msg_sender e = admin s -> t <> EmptyString -> 0 < dur ->
   currentProposalId s + 1 <= max_uint32 ->
   block_timestamp e + dur <= max_uint256 ->
   exists s',
     createProposal e t d dur s
     = Ok (s', [ProposalCreated (currentProposalId s + 1) t (block_timestamp e)
                  (block_timestamp e + dur)]) /\
     currentProposalId s' = currentProposalId s + 1 /\
     proposal_at s' (currentProposalId s + 1) = new_proposal e t d dur /\
     (forall q, q <> currentProposalId s + 1 ->
        proposal_at s' q = proposal_at s q) /\
     votes s' = votes s /\ admin s' = admin s) /\
  (msg_sender e <> admin s -> createProposal e t d dur s = Fail Unauthorized) /\
  (msg_sender e = admin s -> t = EmptyString ->
   createProposal e t d dur s = Fail (Revert "Title cannot be empty")) /\
  (msg_sender e = admin s -> t <> EmptyString -> dur <= 0 ->
   createProposal e t d dur s
   = Fail (Revert "Voting duration must be positive")) /\
  (msg_sender e = admin s -> t <> EmptyString -> 0 < dur ->
   max_uint32 < currentProposalId s + 1 \/
   max_uint256 < block_timestamp e + dur ->
   createProposal e t d dur s = Fail (Panic 17)).
Proof.
  assert (Hlen : t <> EmptyString -> (0 <? Z.of_nat (String.length t)) = true).
  { destruct t; [done|]. intros _. simpl. apply Z.ltb_lt. lia. }
  unfold createProposal, onlyAdmin, require_, bind, checked_add, Unauthorized.
  repeat split.
  - intros Hadm Ht Hdur Hid Hend.
    apply Z.eqb_eq in Hadm. apply Z.ltb_lt in Hdur. apply Z.leb_le in Hid, Hend.
    rewrite Hadm, (Hlen Ht), Hdur, Hid. simpl. rewrite Hend.
    eexists. split; [reflexivity|]. simpl.
    split; [done|]. unfold proposal_at. simpl.
    split; [by rewrite lookup_insert_eq|].
    split; [|done]. intros q Hq. by rewrite lookup_insert_ne.
  - intros Hadm. apply Z.eqb_neq in Hadm. by rewrite Hadm.
  - intros Hadm ->. apply Z.eqb_eq in Hadm. by rewrite Hadm.
  - intros Hadm Ht Hdur. apply Z.eqb_eq in Hadm.
    rewrite Hadm, (Hlen Ht). destruct (Z.ltb_spec 0 dur); [lia|done].
  - intros Hadm Ht Hdur Hover.
    apply Z.eqb_eq in Hadm. apply Z.ltb_lt in Hdur.
    rewrite Hadm, (Hlen Ht), Hdur.
    destruct (Z.leb_spec (currentProposalId s + 1) max_uint32); [|done].
    simpl.
    destruct (Z.leb_spec (block_timestamp e + dur) max_uint256); [lia|done].
Qed.

Lemma createProposal_outcome_witness :
  exists s',
    createProposal (at_time the_admin 160) "Clean rivers" EmptyString 50
      voting_over
    = Ok (s', [ProposalCreated 2 "Clean rivers" 160 210]) /\
    currentProposalId s' = 2 /\
    proposal_at s' 1 = proposal_at voting_over 1.
Proof.
  destruct (createProposal_outcome (at_time the_admin 160) "Clean rivers"
              EmptyString 50 voting_over) as (Hok & _).
  destruct Hok as (s' & Hrun & Hid & _ & Hold & _).
  - vm_compute. reflexivity.
  - discriminate.
  - lia.
  - vm_compute. discriminate.
  - vm_compute. discriminate.
  - exists s'. split; [exact Hrun|]. split; [exact Hid|].
    apply Hold. vm_compute. discriminate.
Defined.

(** X2. A proposal that exists is never deleted, renumbered or edited: after
    any further transactions its id is still valid and its title,
    description, start time and end time are what they were. *)
Theorem proposal_never_edited
    (checkSignatures : list FHE.DecryptionRequest -> Z -> bytes -> bytes -> bool)
    (txs : list (Env * Call)) (s : Storage) (pid : Z) :
  exists_in s pid ->
  let s' := run checkSignatures txs s in
  exists_in s' pid /\
  currentProposalId s <= currentProposalId s' /\
  title (proposal_at s' pid) = title (proposal_at s pid) /\
  description (proposal_at s' pid) = description (proposal_at s pid) /\
  startTime (proposal_at s' pid) = startTime (proposal_at s pid) /\
  endTime (proposal_at s' pid) = endTime (proposal_at s pid).
Proof.
  intros [Hlo Hhi] s'.
  destruct (keeps_run checkSignatures txs s pid Hhi) as [Hid Hmeta _ _ _ _ _].
  pose proof (keeps_id _ _ _
                (keeps_run checkSignatures txs s (currentProposalId s)
                   (Z.le_refl _))) as Hmono.
  split; [by split|]. split; [exact Hmono | exact Hmeta].
Qed.

Lemma proposal_never_edited_witness :
  let s' := run accept_all
              [(at_time the_admin 151, RevealResults 1);
               (at_time the_admin 160, CreateProposal "Clean rivers" EmptyString 50);
               (at_time oracle 170, ProcessResults 0 (abi_encode_uint32_pair 2 1) [])]
              voting_over in
  exists_in s' 1 /\ title (proposal_at s' 1) = "Plant trees"%string /\
  endTime (proposal_at s' 1) = 150.
Proof.
  intros s'.
  destruct (proposal_never_edited accept_all
              [(at_time the_admin 151, RevealResults 1);
               (at_time the_admin 160, CreateProposal "Clean rivers" EmptyString 50);
               (at_time oracle 170, ProcessResults 0 (abi_encode_uint32_pair 2 1) [])]
              voting_over 1) as (Hex & _ & Ht & _ & _ & He).
  - vm_compute. split; [reflexivity | discriminate].
  - split; [exact Hex|]. fold s' in Ht, He. rewrite Ht, He.
    split; vm_compute; reflexivity.
Defined.

(** X3. A vote record is permanent: once an identity has [hasVoted = true]
    for an existing proposal, no later transaction changes its record (flag,
    timestamp, encrypted choice), so [hasUserVoted] keeps answering true. *)
Theorem vote_record_permanent
    (checkSignatures : list FHE.DecryptionRequest -> Z -> bytes -> bytes -> bool)
    (txs : list (Env * Call)) (s : Storage) (pid : Z) (who : address) :
  exists_in s pid ->
  hasVoted (vote_at s pid who) = true ->
  let s' := run checkSignatures txs s in
  vote_at s' pid who = vote_at s pid who /\
  hasUserVoted pid who s' = Ok true.
Proof.
  intros [Hlo Hhi] Hv s'.
  destruct (keeps_run checkSignatures txs s pid Hhi) as [Hid _ _ _ Hrec _ _].
  fold s' in Hid, Hrec. split; [by apply Hrec|].
  unfold hasUserVoted, proposalExists, require_.
  destruct (Z.ltb_spec 0 pid); [|lia].
  destruct (Z.leb_spec pid (currentProposalId s')); [|lia].
  simpl. by rewrite Hrec, Hv.
Qed.

Lemma vote_record_permanent_witness :
  let s' := run accept_all
              [(at_time alice 140, SubmitVote 1 0);
               (at_time the_admin 145, EndProposal 1)] voting_over in
  vote_at s' 1 alice = vote_at voting_over 1 alice /\
  hasUserVoted 1 alice s' = Ok true.
Proof.
  apply (vote_record_permanent accept_all).
  - vm_compute. split; [reflexivity | discriminate].
  - vm_compute. reflexivity.
Defined.

(** X4. The [voters] array of an existing proposal only grows at its end,
    and [totalVoters] grows by exactly the number of addresses appended. *)
Theorem voters_append_only
    (checkSignatures : list FHE.DecryptionRequest -> Z -> bytes -> bytes -> bool)
    (txs : list (Env * Call)) (s : Storage) (pid : Z) :
  exists_in s pid ->
  let s' := run checkSignatures txs s in
  exists added,
    voters (proposal_at s' pid) = voters (proposal_at s pid) ++ added /\
    totalVoters (proposal_at s' pid)
    = totalVoters (proposal_at s pid) + Z.of_nat (length added).
Proof.
  intros [Hlo Hhi] s'.
  destruct (keeps_run checkSignatures txs s pid Hhi)
    as [_ _ [added Hadd] Htot _ _ _].
  fold s' in Hadd, Htot. exists added. split; [done|].
  rewrite Hadd, length_app in Htot. lia.
Qed.

Lemma voters_append_only_witness :
  let s' := run accept_all [(at_time dave 140, SubmitVote 1 0)] voting_over in
  exists added,
    voters (proposal_at s' 1) = voters (proposal_at voting_over 1) ++ added /\
    totalVoters (proposal_at s' 1)
    = totalVoters (proposal_at voting_over 1) + Z.of_nat (length added).
Proof.
  apply (voters_append_only accept_all).
  vm_compute. split; [reflexivity | discriminate].
Defined.

(** X5. A proposal whose [active] flag is cleared is frozen: whatever comes
    later, the flag stays cleared, both tallies, [totalVoters], the voters
    array and every vote record stay as they are, and every vote on it is
    rejected. *)
Theorem closed_proposal_frozen
    (checkSignatures : list FHE.DecryptionRequest -> Z -> bytes -> bytes -> bool)
    (txs : list (Env * Call)) (s : Storage) (pid : Z) :
  exists_in s pid ->
  active (proposal_at s pid) = false ->
  let s' := run checkSignatures txs s in
  active (proposal_at s' pid) = false /\
  yesVotes (proposal_at s' pid) = yesVotes (proposal_at s pid) /\
  noVotes (proposal_at s' pid) = noVotes (proposal_at s pid) /\
  totalVoters (proposal_at s' pid) = totalVoters (proposal_at s pid) /\
  voters (proposal_at s' pid) = voters (proposal_at s pid) /\
  votes_at s' pid = votes_at s pid /\
  forall e v, submitVote e pid v s' = Fail ProposalNotActive.
Proof.
  intros [Hlo Hhi] Hoff s'.
  destruct (keeps_run checkSignatures txs s pid Hhi) as [Hid _ _ _ _ _ Hc].
  fold s' in Hid, Hc.
  destruct (Hc Hoff) as (Ha & Hy & Hn & Ht & Hvs & Hm).
  repeat split; try done.
  intros e v. unfold submitVote, proposalExists, proposalActive, require_.
  destruct (Z.ltb_spec 0 pid); [|lia].
  destruct (Z.leb_spec pid (currentProposalId s')); [|lia].
  simpl. by rewrite Ha.
Qed.

Lemma closed_proposal_frozen_witness :
  let s := run accept_all [(at_time the_admin 135, EndProposal 1)] voting_over in
  let s' := run accept_all
              [(at_time dave 140, SubmitVote 1 1);
               (at_time the_admin 160, CreateProposal "Clean rivers" EmptyString 50)]
              s in
  totalVoters (proposal_at s' 1) = 3 /\
  submitVote (at_time dave 141) 1 1 s' = Fail ProposalNotActive.
Proof.
  intros s s'.
  destruct (closed_proposal_frozen accept_all
              [(at_time dave 140, SubmitVote 1 1);
               (at_time the_admin 160, CreateProposal "Clean rivers" EmptyString 50)]
              s 1) as (_ & _ & _ & Ht & _ & _ & Hrej).
  - vm_compute. split; [reflexivity | discriminate].
  - vm_compute. reflexivity.
  - fold s' in Ht, Hrej. split; [rewrite Ht; vm_compute; reflexivity|].
    apply Hrej.
Defined.

(** X6. In a storage reached from the constructor, a proposal marked
    [resultsRevealed] is closed for good: whatever comes later it stays
    revealed and inactive, both tallies and [totalVoters] stay as they are,
    every vote on it is rejected and so is every further [revealResults]. *)
Theorem revealed_is_final
    (checkSignatures : list FHE.DecryptionRequest -> Z -> bytes -> bytes -> bool)
    (deployer : Env) (txs later : list (Env * Call)) (pid : Z) :
  let s := run checkSignatures txs (constructor deployer) in
  let s' := run checkSignatures later s in
  resultsRevealed (proposal_at s pid) = true ->
  resultsRevealed (proposal_at s' pid) = true /\
  active (proposal_at s' pid) = false /\
  yesVotes (proposal_at s' pid) = yesVotes (proposal_at s pid) /\
  noVotes (proposal_at s' pid) = noVotes (proposal_at s pid) /\
  totalVoters (proposal_at s' pid) = totalVoters (proposal_at s pid) /\
  (forall e v, exists f, submitVote e pid v s' = Fail f) /\
  (forall e, exists f, revealResults e pid s' = Fail f).
Proof.
  intros s s' Hrev.
  destruct (storage_inv_reachable checkSignatures deployer txs) as [_ Hinv].
  pose proof (wf_storage_reachable checkSignatures deployer txs) as Hwf.
  fold s in Hinv, Hwf.
  assert (Hoff : active (proposal_at s pid) = false).
  { destruct (active (proposal_at s pid)) eqn:E; [|done].
    pose proof (inv_flags _ _ (Hinv pid) E). congruence. }
  assert (Hle : pid <= currentProposalId s).
  { destruct (Z.le_gt_cases pid (currentProposalId s)) as [|Hgt]; [done|].
    destruct (wf_fresh _ Hwf pid) as [Hz _]; [lia|].
    rewrite Hz in Hrev. discriminate. }
  destruct (keeps_run checkSignatures later s pid Hle) as [_ _ _ _ _ Hr Hc].
  fold s' in Hr, Hc.
  destruct (Hc Hoff) as (Ha & Hy & Hn & Ht & _ & _).
  split; [by apply Hr|]. repeat split; try done.
  - intros e v.
    destruct (submitVote e pid v s') as [[s2 evs]|f] eqn:E; [|eauto].
    apply submitVote_Ok in E as ((_ & Hact & _) & _). congruence.
  - intros e.
    destruct (revealResults e pid s') as [[s2 evs]|f] eqn:E; [|eauto].
    apply revealResults_Ok in E as ((_ & _ & _ & Hno) & _).
    rewrite (Hr Hrev) in Hno. discriminate.
Qed.

Lemma revealed_is_final_witness :
  let s := run accept_all
             (three_votes ++
              [(at_time the_admin 151, RevealResults 1);
               (at_time oracle 160,
                ProcessResults 0 (abi_encode_uint32_pair 2 1) [])])
             (constructor (at_time the_admin 0)) in
  let s' := run accept_all
              [(at_time the_admin 170, CreateProposal "Clean rivers" EmptyString 50)]
              s in
  resultsRevealed (proposal_at s 1) = true /\
  resultsRevealed (proposal_at s' 1) = true /\
  exists f, revealResults (at_time the_admin 180) 1 s' = Fail f.
Proof.
  intros s s'.
  assert (Hrev : resultsRevealed (proposal_at s 1) = true)
    by (vm_compute; reflexivity).
  destruct (revealed_is_final accept_all (at_time the_admin 0)
              (three_votes ++
               [(at_time the_admin 151, RevealResults 1);
                (at_time oracle 160,
                 ProcessResults 0 (abi_encode_uint32_pair 2 1) [])])
              [(at_time the_admin 170, CreateProposal "Clean rivers" EmptyString 50)]
              1 Hrev) as (Hr & _ & _ & _ & _ & _ & Hno).
  split; [exact Hrev|].
  split; [exact Hr | exact (Hno (at_time the_admin 180))].
Defined.

(** X7. In a storage reached from the constructor, every existing proposal
    has a non-empty title and a voting window with [startTime < endTime],
    the proposal count fits a [uint32], and every id beyond it is untouched:
    the zero record and no vote records. *)
Theorem proposals_well_formed
    (checkSignatures : list FHE.DecryptionRequest -> Z -> bytes -> bytes -> bool)
    (deployer : Env) (txs : list (Env * Call)) :
  let s := run checkSignatures txs (constructor deployer) in
  0 <= currentProposalId s <= max_uint32 /\
  (forall pid, exists_in s pid ->
     title (proposal_at s pid) <> EmptyString /\
     startTime (proposal_at s pid) < endTime (proposal_at s pid)) /\
  (forall pid, currentProposalId s < pid ->
     proposal_at s pid = zero_Proposal /\ votes_at s pid = ∅).
Proof.
  intros s.
  destruct (wf_storage_reachable checkSignatures deployer txs) as [Hc Hw _ _ Hf].
  fold s in Hc, Hw, Hf.
  split; [done|]. split; [|done].
  intros pid Hex. destruct (Hw pid Hex) as (? & _ & ?). done.
Qed.

Lemma proposals_well_formed_witness :
  title (proposal_at voting_over 1) <> EmptyString /\
  startTime (proposal_at voting_over 1) < endTime (proposal_at voting_over 1).
Proof.
  destruct (proposals_well_formed accept_all (at_time the_admin 0) three_votes)
    as (_ & Hw & _).
  apply Hw. vm_compute. split; [reflexivity | discriminate].
Defined.

(** X8. In a storage reached from the constructor, whenever
    [getVoteTimestamp] answers, the time it returns lies within the voting
    window of the proposal, and the stored encrypted choice of that voter
    holds 0 or 1. *)
Theorem vote_timestamp_within_window
    (checkSignatures : list FHE.DecryptionRequest -> Z -> bytes -> bytes -> bool)
    (deployer : Env) (txs : list (Env * Call)) (pid : Z) (who : address) (t : Z) :
  let s := run checkSignatures txs (constructor deployer) in
  getVoteTimestamp pid who s = Ok t ->
  startTime (proposal_at s pid) <= t <= endTime (proposal_at s pid) /\
  (dec8 (encryptedVote (vote_at s pid who)) = 0 \/
   dec8 (encryptedVote (vote_at s pid who)) = 1) /\
  hasUserVoted pid who s = Ok true.
Proof.
  intros s.
  pose proof (wf_storage_reachable checkSignatures deployer txs) as Hwf.
  fold s in Hwf.
  unfold getVoteTimestamp, hasUserVoted.
  intros [Hex (Hv & [= <-])%require_Ok]%proposalExists_Ok.
  unfold proposalExists, require_.
  destruct Hex as [Hlo Hhi].
  destruct (Z.ltb_spec 0 pid); [|lia].
  destruct (Z.leb_spec pid (currentProposalId s)); [|lia]. simpl.
  rewrite Hv. unfold vote_at in *.
  destruct (votes_at s pid !! who) as [w|] eqn:E; [|discriminate].
  simpl in *. destruct (wf_votes _ Hwf pid who w E) as (_ & Hwin & Hbit).
  done.
Qed.

Lemma vote_timestamp_within_window_witness :
  startTime (proposal_at voting_over 1) <= 120
    <= endTime (proposal_at voting_over 1) /\
  hasUserVoted 1 bob voting_over = Ok true.
Proof.
  destruct (vote_timestamp_within_window accept_all (at_time the_admin 0)
              three_votes 1 bob 120) as (Hwin & _ & Hv).
  - vm_compute. reflexivity.
  - split; [exact Hwin | exact Hv].
Defined.

(** X9. In a storage reached from the constructor and for every proposal,
    the plaintext of [yesVotes] is the number of vote records whose
    encrypted choice holds 1, and the plaintext of [noVotes] is the number
    of those whose encrypted choice holds 0. *)
Theorem tally_counts_choices
    (checkSignatures : list FHE.DecryptionRequest -> Z -> bytes -> bytes -> bool)
    (deployer : Env) (txs : list (Env * Call)) (pid : Z) :
  let s := run checkSignatures txs (constructor deployer) in
  dec32 (yesVotes (proposal_at s pid)) = Z.of_nat (size (records_with 1 s pid)) /\
  dec32 (noVotes (proposal_at s pid)) = Z.of_nat (size (records_with 0 s pid)).
Proof.
  intros s.
  apply (wf_tally _ (wf_storage_reachable checkSignatures deployer txs)).
Qed.

(** X10. [isVotingActive] tells whether a vote can be cast: an accepted
    [submitVote] implies it answers true at that block time; when it
    answers true, a vote of 0 or 1 from an identity that has not voted is
    accepted (short of [2^32 - 1] voters); when it does not, every vote is
    rejected. *)
Theorem isVotingActive_decides_submitVote (e : Env) (pid v : Z) (s : Storage) :
  (forall s' evs,
     submitVote e pid v s = Ok (s', evs) -> isVotingActive e pid s = Ok true) /\
  (isVotingActive e pid s = Ok true ->
   v = 0 \/ v = 1 ->
   hasVoted (vote_at s pid (msg_sender e)) = false ->
   totalVoters (proposal_at s pid) < max_uint32 ->
   exists s', submitVote e pid v s = Ok (s', [VoteSubmitted (msg_sender e) pid])) /\
  (isVotingActive e pid s <> Ok true ->
   exists f, submitVote e pid v s = Fail f).
Proof.
  assert (Hfwd : forall s' evs,
    submitVote e pid v s = Ok (s', evs) -> isVotingActive e pid s = Ok true).
  { intros s' evs ((Hex & Hact & [Hst Hen] & _) & _)%submitVote_Ok.
    apply isVotingActive_true. split; [done|].
    unfold voting_open. rewrite Hact.
    apply Z.leb_le in Hst, Hen. by rewrite Hst, Hen. }
  split; [exact Hfwd|]. split.
  - intros [Hex Hopen]%isVotingActive_true Hv Hnv Hle.
    unfold voting_open in Hopen.
    apply andb_true_iff in Hopen as [[Hact Hst]%andb_true_iff Hen].
    apply Z.leb_le in Hst, Hen.
    apply submitVote_accepts; auto. lia.
  - intros Hno.
    destruct (submitVote e pid v s) as [[s' evs]|f] eqn:E; [|eauto].
    exfalso. apply Hno. by eapply Hfwd.
Qed.

Lemma isVotingActive_decides_submitVote_witness :
  isVotingActive (at_time dave 140) 1 voting_over = Ok true /\
  (exists s',
     submitVote (at_time dave 140) 1 1 voting_over
     = Ok (s', [VoteSubmitted dave 1])) /\
  exists f, submitVote (at_time dave 151) 1 1 voting_over = Fail f.
Proof.
  assert (Hopen : isVotingActive (at_time dave 140) 1 voting_over = Ok true)
    by (vm_compute; reflexivity).
  split; [exact Hopen|]. split.
  - destruct (isVotingActive_decides_submitVote (at_time dave 140) 1 1
                voting_over) as (_ & Hyes & _).
    apply Hyes; [exact Hopen | by right | vm_compute; reflexivity
                | vm_compute; reflexivity].
  - destruct (isVotingActive_decides_submitVote (at_time dave 151) 1 1
                voting_over) as (_ & _ & Hno).
    apply Hno. vm_compute. discriminate.
Defined.

(** X11. Casting a vote and reading it back: before the vote
    [hasUserVoted] answers false and [getVoteTimestamp] reverts; after an
    accepted vote [hasUserVoted] answers true and [getVoteTimestamp] returns
    the block time of the vote; the answers for every other voter or
    proposal are unchanged. *)
Theorem vote_then_read_back (e : Env) (pid v : Z) (s s' : Storage)
    (evs : list Event) :
  submitVote e pid v s = Ok (s', evs) ->
  hasUserVoted pid (msg_sender e) s = Ok false /\
  getVoteTimestamp pid (msg_sender e) s = Fail (Revert "User has not voted") /\
  hasUserVoted pid (msg_sender e) s' = Ok true /\
  getVoteTimestamp pid (msg_sender e) s' = Ok (block_timestamp e) /\
  (forall q who, (q, who) <> (pid, msg_sender e) ->
     hasUserVoted q who s' = hasUserVoted q who s /\
     getVoteTimestamp q who s' = getVoteTimestamp q who s).
Proof.
  intros ((Hex & _ & _ & _ & Hnv & _) & (_ & Hid & _) & _ & Hm & Hfr & _)
         %submitVote_Ok.
  assert (Hafter : vote_at s' pid (msg_sender e)
                   = {| encryptedVote := FHE.asEuint8 v; hasVoted := true;
                        timestamp := block_timestamp e |}).
  { unfold vote_at. by rewrite Hm, lookup_insert_eq. }
  assert (Hother : forall q who, (q, who) <> (pid, msg_sender e) ->
                     vote_at s' q who = vote_at s q who).
  { intros q who Hne. unfold vote_at.
    destruct (decide (q = pid)) as [->|Hq].
    - rewrite Hm, lookup_insert_ne; [done|]. congruence.
    - by destruct (Hfr q Hq) as [_ ->]. }
  unfold hasUserVoted, getVoteTimestamp, proposalExists, require_.
  rewrite Hid. destruct Hex as [Hlo Hhi].
  apply Z.ltb_lt in Hlo. apply Z.leb_le in Hhi.
  rewrite Hlo, Hhi, Hnv, Hafter. simpl.
  repeat split; try done.
  - by rewrite (Hother q who).
  - by rewrite (Hother q who).
Qed.

Lemma vote_then_read_back_witness :
  exists s',
    submitVote (at_time dave 140) 1 1 voting_over
    = Ok (s', [VoteSubmitted dave 1]) /\
    hasUserVoted 1 dave s' = Ok true /\
    getVoteTimestamp 1 dave s' = Ok 140.
Proof.
  destruct (submitVote (at_time dave 140) 1 1 voting_over)
    as [[s' evs]|] eqn:E; [|vm_compute in E; discriminate].
  destruct (vote_then_read_back _ _ _ _ _ _ E) as (_ & _ & Hv & Ht & _).
  exists s'. split; [|split; [exact Hv | exact Ht]].
  apply submitVote_Ok in E as (_ & _ & _ & _ & _ & ->). reflexivity.
Defined.

(** X12. A caller other than the admin cannot create or end a proposal,
    request a reveal or hand over the admin role: each of these calls fails
    and the transaction leaves the storage as it was. *)
Theorem non_admin_cannot_administer
    (checkSignatures : list FHE.DecryptionRequest -> Z -> bytes -> bytes -> bool)
    (e : Env) (c : Call) (s : Storage) :
  admin_only c = true ->
  msg_sender e <> admin s ->
  (exists f, exec checkSignatures e c s = Fail f) /\
  step checkSignatures s (e, c) = s.
Proof.
  intros Hc Hna.
  assert (Hfail : exists f, exec checkSignatures e c s = Fail f).
  { destruct (exec checkSignatures e c s) as [[s' evs]|f] eqn:E; [|eauto].
    exfalso. apply Hna.
    destruct c as [t d dur | pid v | pid | rid ct pf | pid | a];
      try discriminate; simpl in E.
    - by apply createProposal_Ok in E as ((? & _) & _).
    - by apply revealResults_Ok in E as ((_ & _ & ? & _) & _).
    - by apply endProposal_Ok in E as ((_ & ? & _) & _).
    - by apply transferAdmin_Ok in E as ((? & _) & _). }
  split; [done|]. unfold step. simpl. by destruct Hfail as [f ->].
Qed.

Lemma non_admin_cannot_administer_witness :
  (exists f, exec accept_all (at_time alice 140) (TransferAdmin alice)
               voting_over = Fail f) /\
  step accept_all voting_over (at_time alice 140, TransferAdmin alice)
  = voting_over.
Proof.
  apply non_admin_cannot_administer.
  - reflexivity.
  - vm_compute. discriminate.
Defined.

(** X13. The admin role moves only by [transferAdmin] called by the current
    admin, and only to a non-zero address: a transaction that changes
    [admin] is such a call, and an admin that is not the zero address never
    becomes it. *)
Theorem admin_custody
    (checkSignatures : list FHE.DecryptionRequest -> Z -> bytes -> bytes -> bool)
    (s : Storage) :
  (forall e c,
     admin (step checkSignatures s (e, c)) <> admin s ->
     msg_sender e = admin s /\
     c = TransferAdmin (admin (step checkSignatures s (e, c))) /\
     admin (step checkSignatures s (e, c)) <> 0) /\
  (forall txs, admin s <> 0 -> admin (run checkSignatures txs s) <> 0).
Proof.
  assert (Hstep : forall s0 e c,
    admin (step checkSignatures s0 (e, c)) <> admin s0 ->
    msg_sender e = admin s0 /\
    c = TransferAdmin (admin (step checkSignatures s0 (e, c))) /\
    admin (step checkSignatures s0 (e, c)) <> 0).
  { intros s0 e c. unfold step. simpl.
    destruct (exec checkSignatures e c s0) as [[s' evs]|] eqn:E; [|done].
    destruct c as [t d dur | pid v | pid | rid ct pf | pid | a]; simpl in E.
    - apply createProposal_Ok in E as (_ & (-> & _) & _). done.
    - apply submitVote_Ok in E as (_ & (-> & _) & _). done.
    - apply revealResults_Ok in E as (_ & -> & _). done.
    - apply processResults_Ok in E as (_ & y & n & _ & -> & _). done.
    - apply endProposal_Ok in E as (_ & -> & _). done.
    - apply transferAdmin_Ok in E as ((Hadm & Hnz) & -> & _). done. }
  split; [apply Hstep|].
  intros txs. revert s. induction txs as [|[e c] txs IH]; intros s Hnz; [done|].
  simpl. apply IH.
  destruct (decide (admin (step checkSignatures s (e, c)) = admin s)) as [->|Hch];
    [done|].
  by destruct (Hstep s e c Hch) as (_ & _ & ?).
Qed.

Lemma admin_custody_witness :
  admin (run accept_all
           [(at_time the_admin 140, TransferAdmin alice);
            (at_time the_admin 141, TransferAdmin bob)] voting_over) <> 0.
Proof.
  destruct (admin_custody accept_all voting_over) as [_ Hrun].
  apply Hrun. vm_compute. discriminate.
Defined.

(** X14. An accepted [transferAdmin] changes the admin and nothing else.
    From then on the previous admin, if it is another address, is turned
    away by [createProposal] and [transferAdmin], and the new admin can
    hand the role on. *)
Theorem transferAdmin_hands_over (e : Env) (a : address) (s s' : Storage)
    (evs : list Event) :
  transferAdmin e a s = Ok (s', evs) ->
  (admin s' = a /\ a <> 0 /\ evs = [] /\
   currentProposalId s' = currentProposalId s /\
   proposals s' = proposals s /\ votes s' = votes s /\
   decryptionRequests s' = decryptionRequests s) /\
  (a <> admin s ->
   forall now,
     (forall t d dur,
        createProposal (at_time (admin s) now) t d dur s' = Fail Unauthorized) /\
     (forall b,
        transferAdmin (at_time (admin s) now) b s' = Fail Unauthorized)) /\
  (forall now b, b <> 0 ->
     transferAdmin (at_time a now) b s' = Ok (set_admin b s', [])).
Proof.
  intros ((Hadm & Hnz) & -> & ->)%transferAdmin_Ok.
  split; [done|]. split.
  - intros Hne now.
    assert (Hneq : (admin s =? a) = false) by (apply Z.eqb_neq; congruence).
    split; intros; unfold createProposal, transferAdmin, onlyAdmin, require_;
      simpl; by rewrite Hneq.
  - intros now b Hb. unfold transferAdmin, onlyAdmin, require_. simpl.
    rewrite Z.eqb_refl. apply Z.eqb_neq in Hb. by rewrite Hb.
Qed.

Lemma transferAdmin_hands_over_witness :
  exists s',
    transferAdmin (at_time the_admin 140) alice voting_over = Ok (s', []) /\
    admin s' = alice /\
    createProposal (at_time (admin voting_over) 141) "Clean rivers" EmptyString
      50 s' = Fail Unauthorized.
Proof.
  destruct (transferAdmin (at_time the_admin 140) alice voting_over)
    as [[s' evs]|] eqn:E; [|vm_compute in E; discriminate].
  destruct (transferAdmin_hands_over _ _ _ _ _ E)
    as ((Ha & _ & Hev & _) & Hold & _).
  exists s'. rewrite <- Hev. split; [reflexivity|]. split; [exact Ha|].
  destruct (Hold ltac:(vm_compute; discriminate) 141) as [Hcreate _].
  apply Hcreate.
Defined.

(** X15. With a verifier that rejects a callback when no decryption request
    has been saved, no callback is accepted before the first proposal
    exists: in every storage reached from the constructor with
    [currentProposalId = 0] no request is saved, every [processResults]
    fails and leaves the storage as it was; and slot 0 of the proposals
    mapping, which [processResults] would write then, is never written. *)
Theorem no_callback_before_first_proposal
    (checkSignatures : list FHE.DecryptionRequest -> Z -> bytes -> bytes -> bool)
    (deployer : Env) (txs : list (Env * Call)) :
  (forall requestId cleartexts decryptionProof,
     checkSignatures [] requestId cleartexts decryptionProof = false) ->
  let s := run checkSignatures txs (constructor deployer) in
  proposal_at s 0 = zero_Proposal /\
  (currentProposalId s = 0 ->
   decryptionRequests s = [] /\
   forall e requestId cleartexts decryptionProof,
     processResults checkSignatures e requestId cleartexts decryptionProof s
     = Fail InvalidKMSSignatures /\
     step checkSignatures s
       (e, ProcessResults requestId cleartexts decryptionProof) = s).
Proof.
  intros Hrej s.
  destruct (before_first_run checkSignatures Hrej txs (constructor deployer)
              (before_first_constructor deployer)) as [_ Hr Hz].
  fold s in Hr, Hz. split; [exact Hz|].
  intros Hzero. split; [by apply Hr|].
  intros e rid ct pf.
  assert (Hfail : processResults checkSignatures e rid ct pf s
                  = Fail InvalidKMSSignatures).
  { unfold processResults. by rewrite (Hr Hzero), Hrej. }
  split; [exact Hfail|]. unfold step. simpl. by rewrite Hfail.
Qed.

Lemma no_callback_before_first_proposal_witness :
  let s := run kms_checkSignatures
             [(at_time the_admin 10, TransferAdmin alice);
              (at_time oracle 20,
               ProcessResults 0 (abi_encode_uint32_pair 5 7) [])]
             (constructor (at_time the_admin 0)) in
  proposal_at s 0 = zero_Proposal /\
  processResults kms_checkSignatures (at_time oracle 30) 0
    (abi_encode_uint32_pair 5 7) [] s = Fail InvalidKMSSignatures.
Proof.
  intros s.
  destruct (no_callback_before_first_proposal kms_checkSignatures
              (at_time the_admin 0)
              [(at_time the_admin 10, TransferAdmin alice);
               (at_time oracle 20,
                ProcessResults 0 (abi_encode_uint32_pair 5 7) [])])
    as [Hz Hno].
  - intros rid ct pf. reflexivity.
  - split; [exact Hz|].
    destruct Hno as [_ Hrej]; [vm_compute; reflexivity|].
    exact (proj1 (Hrej (at_time oracle 30) 0 (abi_encode_uint32_pair 5 7) [])).
Defined.

Lemma be_word_nonneg bs : 0 <= be_word bs.
Proof.
  unfold be_word.
  assert (H : forall acc, 0 <= acc ->
    0 <= fold_left (fun acc b => acc * 256 + Z.of_N (Byte.to_N b)) bs acc).
  { induction bs as [|b bs IH]; intros acc Hacc; simpl; [done|].
    apply IH. lia. }
  by apply H.
Qed.

Lemma abi_decode_Some ct y n :
  abi_decode_uint32_pair ct = Some (y, n) ->
  (64 <= length ct)%nat /\ 0 <= y <= max_uint32 /\ 0 <= n <= max_uint32.
Proof.
  unfold abi_decode_uint32_pair.
  destruct (Z.ltb_spec (Z.of_nat (length ct)) 64); [done|].
  destruct (Z.leb_spec (be_word (firstn 32 ct)) max_uint32); [|done].
  destruct (Z.leb_spec (be_word (firstn 32 (skipn 32 ct))) max_uint32); [|done].
  simpl. intros [= <- <-].
  split; [lia|]. split; (split; [apply be_word_nonneg | done]).
Qed.

Lemma abi_decode_ignores_tail y n extra :
  0 <= y <= max_uint32 -> 0 <= n <= max_uint32 ->
  abi_decode_uint32_pair (abi_encode_uint32_pair y n ++ extra) = Some (y, n).
Proof.
  intros Hy Hn. unfold abi_decode_uint32_pair, abi_encode_uint32_pair.
  rewrite !length_app, !abi_word_length.
  destruct (Z.ltb_spec (Z.of_nat (32 + 32 + length extra)) 64); [lia|].
  rewrite <- app_assoc.
  rewrite (take_app_length' (abi_word y) (abi_word n ++ extra) 32
             (abi_word_length y)).
  rewrite (drop_app_length' (abi_word y) (abi_word n ++ extra) 32
             (abi_word_length y)).
  rewrite (take_app_length' (abi_word n) extra 32 (abi_word_length n)).
  unfold max_uint32 in *.
  rewrite !be_word_abi_word by lia.
  destruct (Z.leb_spec y (2 ^ 32 - 1)); [|lia].
  destruct (Z.leb_spec n (2 ^ 32 - 1)); [|lia]. done.
Qed.

(** X16. What [processResults] makes of the callback payload. A payload
    whose signatures do not verify is rejected whatever it contains; a
    verified payload of fewer than 64 bytes is rejected by the decoder; the
    values of an accepted callback always fit a [uint32]; and a verified
    payload that starts with the encoding of two [uint32] values is accepted
    and reports exactly those values, whatever bytes follow. *)
Theorem processResults_payload
    (checkSignatures : list FHE.DecryptionRequest -> Z -> bytes -> bytes -> bool)
    (e : Env) (requestId : Z) (cleartexts decryptionProof : bytes)
    (s : Storage) :
  (checkSignatures (decryptionRequests s) requestId cleartexts decryptionProof
   = false ->
   processResults checkSignatures e requestId cleartexts decryptionProof s
   = Fail InvalidKMSSignatures) /\
  (checkSignatures (decryptionRequests s) requestId cleartexts decryptionProof
   = true ->
   (length cleartexts < 64)%nat ->
   processResults checkSignatures e requestId cleartexts decryptionProof s
   = Fail AbiDecodeError) /\
  (forall s' evs,
     processResults checkSignatures e requestId cleartexts decryptionProof s
     = Ok (s', evs) ->
     exists y n,
       evs = [ResultsRevealed (currentProposalId s) y n;
              ProposalEnded (currentProposalId s)] /\
       0 <= y <= max_uint32 /\ 0 <= n <= max_uint32 /\
       (64 <= length cleartexts)%nat) /\
  (forall y n extra,
     checkSignatures (decryptionRequests s) requestId cleartexts
       decryptionProof = true ->
     cleartexts = abi_encode_uint32_pair y n ++ extra ->
     0 <= y <= max_uint32 -> 0 <= n <= max_uint32 ->
     exists s',
       processResults checkSignatures e requestId cleartexts decryptionProof s
       = Ok (s', [ResultsRevealed (currentProposalId s) y n;
                  ProposalEnded (currentProposalId s)])).
Proof.
  split; [|split; [|split]].
  - intros Hchk. unfold processResults. by rewrite Hchk.
  - intros Hchk Hshort. unfold processResults, abi_decode_uint32_pair.
    rewrite Hchk.
    destruct (Z.ltb_spec (Z.of_nat (length cleartexts)) 64); [done|lia].
  - intros s' evs (_ & y & n & Hdec & _ & ->)%processResults_Ok.
    apply abi_decode_Some in Hdec as (Hlen & Hy & Hn). by exists y, n.
  - intros y n extra Hchk -> Hy Hn.
    eexists. apply processResults_accepts; [done|].
    by apply abi_decode_ignores_tail.
Qed.

Lemma processResults_payload_witness :
  processResults accept_all (at_time oracle 160) 0 [] [] awaiting_reveal
  = Fail AbiDecodeError /\
  exists s',
    processResults accept_all (at_time oracle 160) 0
      (abi_encode_uint32_pair 2 1 ++ ["255"%byte]) [] awaiting_reveal
    = Ok (s', [ResultsRevealed (currentProposalId awaiting_reveal) 2 1;
               ProposalEnded (currentProposalId awaiting_reveal)]).
Proof.
  split.
  - destruct (processResults_payload accept_all (at_time oracle 160) 0 [] []
                awaiting_reveal) as (_ & Hshort & _).
    apply Hshort; [reflexivity | simpl; lia].
  - destruct (processResults_payload accept_all (at_time oracle 160) 0
                (abi_encode_uint32_pair 2 1 ++ ["255"%byte]) []
                awaiting_reveal) as (_ & _ & _ & Hok).
    apply (Hok 2 1 ["255"%byte]); [reflexivity | reflexivity | | ];
      unfold max_uint32; lia.
Defined.

(** X17. [getActiveProposals] returns, in increasing order, exactly the ids
    for which [isVotingActive] answers true at the same block time; no array
    access goes out of bounds. It needs fewer than [2^32 - 1] proposals. *)
Theorem getActiveProposals_lists_open (e : Env) (s : Storage) :
  currentProposalId s < max_uint32 ->
  let open := filter (fun i => voting_open e s i = true) (proposal_ids s) in
  getActiveProposals e s = Ok open /\
  (forall i, i ∈ open <-> isVotingActive e i s = Ok true) /\
  StronglySorted Z.lt open.
Proof.
  intros Hmax open.
  split; [by apply getActiveProposals_returns|]. split.
  - intros i. unfold open. rewrite list_elem_of_filter, elem_of_proposal_ids.
    rewrite isVotingActive_true. tauto.
  - unfold open, proposal_ids. apply filter_sorted, zrange_sorted.
Qed.

(** X18. With [2^32 - 1] proposals the loop counter of [getActiveProposals]
    cannot step past the last id: the call panics on arithmetic overflow
    instead of returning. *)
Theorem getActiveProposals_overflow (e : Env) (s : Storage) :
  currentProposalId s = max_uint32 ->
  getActiveProposals e s = Fail (Panic 17).
Proof.
  intros Hfull.
  assert (Hpos : 0 < max_uint32) by done.
  rewrite getActiveProposals_loops.
  remember (Z.to_nat (currentProposalId s)) as n eqn:Hn.
  assert (Hn' : Z.of_nat n = max_uint32) by lia.
  clear Hn Hfull.
  destruct n as [|k]; [lia|].
  replace (S k) with (k + 1)%nat at 1 by lia.
  rewrite for_loop_app.
  pose proof (scan_loop e s k 1 [] (S k)) as Hscan.
  change (Z.of_nat (length (@nil Z))) with 0 in Hscan.
  cbn [app length] in Hscan. rewrite Hscan by lia. clear Hscan.
  cbv zeta. cbn [bind for_loop].
  set (hits := filter (fun j => voting_open e s j = true) (zrange 1 k)).
  assert (Hlen : (length hits <= k)%nat).
  { unfold hits. etrans; [apply length_filter|]. by rewrite length_zrange. }
  assert (Hlast : checked_add max_uint32 (1 + Z.of_nat k) 1 = Fail (Panic 17)).
  { unfold checked_add.
    destruct (Z.leb_spec (1 + Z.of_nat k + 1) max_uint32); [lia|done]. }
  unfold scan_body.
  destruct (voting_open e s (1 + Z.of_nat k)).
  - replace (S k - length hits)%nat with (S (k - length hits)) by lia.
    rewrite array_set_next. cbn [bind].
    unfold checked_add at 1.
    destruct (Z.leb_spec (Z.of_nat (length hits) + 1) max_uint32); [|lia].
    cbn [bind]. by rewrite Hlast.
  - cbn [bind]. by rewrite Hlast.
Qed.

Lemma getActiveProposals_overflow_witness :
  getActiveProposals (at_time alice 0) (set_currentProposalId max_uint32 deployed)
  = Fail (Panic 17).
Proof. apply getActiveProposals_overflow. reflexivity. Defined.

Lemma getActiveProposals_lists_open_witness :
  getActiveProposals (at_time alice 180)
    (run accept_all (firstn 6 callback_after_new_proposal) deployed) = Ok [2].
Proof.
  destruct (getActiveProposals_lists_open (at_time alice 180)
              (run accept_all (firstn 6 callback_after_new_proposal) deployed))
    as (Hrun & _).
  - vm_compute. reflexivity.
  - rewrite Hrun. vm_compute. reflexivity.
Defined.

(** X19. Ending a proposal early does not open the reveal early: after an
    accepted [endProposal], [revealResults] for that proposal keeps failing
    with "Voting is still active" until the block time is past its
    [endTime], whoever calls; from then on the admin's request is accepted
    (as long as the results are not revealed). *)
Theorem early_end_keeps_reveal_locked (e : Env) (pid : Z) (s s' : Storage)
    (evs : list Event) :
  endProposal e pid s = Ok (s', evs) ->
  endTime (proposal_at s' pid) = endTime (proposal_at s pid) /\
  (forall e2,
     block_timestamp e2 <= endTime (proposal_at s pid) ->
     revealResults e2 pid s' = Fail (Revert "Voting is still active")) /\
  (forall e2,
     endTime (proposal_at s pid) < block_timestamp e2 ->
     msg_sender e2 = admin s ->
     resultsRevealed (proposal_at s pid) = false ->
     exists s'', revealResults e2 pid s' = Ok (s'', [])).
Proof.
  intros (([Hlo Hhi] & Hadm & Hact) & -> & _)%endProposal_Ok.
  apply Z.ltb_lt in Hlo. apply Z.leb_le in Hhi.
  unfold revealResults, proposalExists, proposalEnded, onlyAdmin, require_.
  rewrite proposal_at_update_eq. simpl. rewrite Hlo, Hhi. simpl.
  split; [done|]. split.
  - intros e2 Hearly. apply Z.ltb_ge in Hearly. by rewrite Hearly.
  - intros e2 Hlate Hadm2 Hrev.
    apply Z.ltb_lt in Hlate. apply Z.eqb_eq in Hadm2.
    rewrite Hlate, Hadm2, Hrev. simpl. eauto.
Qed.

Lemma early_end_keeps_reveal_locked_witness :
  exists s',
    endProposal (at_time the_admin 135) 1 voting_over
    = Ok (s', [ProposalEnded 1]) /\
    revealResults (at_time the_admin 140) 1 s'
    = Fail (Revert "Voting is still active") /\
    exists s'', revealResults (at_time the_admin 151) 1 s' = Ok (s'', []).
Proof.
  destruct (endProposal (at_time the_admin 135) 1 voting_over)
    as [[s' evs]|] eqn:E; [|vm_compute in E; discriminate].
  destruct (early_end_keeps_reveal_locked _ _ _ _ _ E) as (_ & Hlock & Hopen).
  exists s'. split; [|split].
  - apply endProposal_Ok in E as (_ & -> & ->). reflexivity.
  - apply Hlock. vm_compute. discriminate.
  - apply Hopen; vm_compute; reflexivity.
Defined.
